(** * AnimationSet: a shallow embedding of SOUI/include/animator/AnimationSet.h

    The composite animation node of the SOUI animator.  The class extends
    [Animation] and keeps its children in an [SArray<Animation>], by value.
    [Animation.h], [Transformation] and the [smax]/[smin] macros are not part
    of the translated file; what the set needs from them is taken as an
    interface (type classes below) or modelled where the set's own code fixes
    the meaning.

    Embedded here: the constructor with [setFlag] and [init],
    [setStartOffset], [setDuration], [addAnimation], [setStartTime],
    [getStartTime], [getDuration], [computeDurationHint],
    [getTransformation], [reset] and [restoreChildrenStartOffset].
    Listener callbacks are recorded as events; a callback is taken not to
    modify the set it is called on. *)

From Stdlib Require Import ZArith Lia Bool List Permutation.
From stdpp Require Import base list.

Local Open Scope Z_scope.

(** ** The C++ [long] type

    [long] is the 32-bit signed integer of the toolkit's target compilers;
    sums and differences are taken with two's-complement wrap-around. *)

Definition long_bits : Z := 32.
Definition long_modulus : Z := 2 ^ long_bits.
Definition long_half : Z := 2 ^ (long_bits - 1).

Definition wrap (x : Z) : Z := (x + long_half) mod long_modulus - long_half.

Definition in_long (x : Z) : Prop := - long_half <= x < long_half.

Definition ladd (x y : Z) : Z := wrap (x + y).
Definition lsub (x y : Z) : Z := wrap (x - y).

(** Modelled from the spec: the [smax] macro (declared outside this file),
    the larger of its two arguments, [((a) > (b)) ? (a) : (b)]. *)
Definition smax (a b : Z) : Z := if a >? b then a else b.

(** Modelled from the spec: the [smin] macro (declared outside this file),
    the smaller of its two arguments, [((a) < (b)) ? (a) : (b)]. *)
Definition smin (a b : Z) : Z := if a <? b then a else b.

(** ** Counted loops

    [for (int i = 0; i < count; i++)] and [for (int i = count - 1; i >= 0; --i)]
    over a loop state. *)

Fixpoint for_up {St : Type} (n : nat) (i : nat) (body : nat -> St -> St) (st : St) : St :=
  match n with
  | O => st
  | S n' => for_up n' (S i) body (body i st)
  end.

Fixpoint for_down {St : Type} (n : nat) (body : nat -> St -> St) (st : St) : St :=
  match n with
  | O => st
  | S i => for_down i body (body i st)
  end.

(** The ascending loop with a [break]: the body also says whether the loop is
    left after it. *)
Fixpoint for_up_until {St : Type} (n : nat) (i : nat) (body : nat -> St -> St * bool)
  (st : St) : St :=
  match n with
  | O => st
  | S n' =>
      let '(st', stop) := body i st in
      if stop then st' else for_up_until n' (S i) body st'
  end.

(** ** Transformation *)

Module Transformation.

(** The value type of transformations with its [compose] operation and the
    value a transformation holds after [clear()]. *)
Class Ops (T : Type) := {
  identity : T;
  compose : T -> T -> T
}.

(** Modelled from the spec: [Transformation::clear()] (declared outside this
    file) resets the receiver to the identity transformation. *)
Definition clear {T : Type} `{Ops T} (_ : T) : T := identity.

End Transformation.

(** ** The Animation base class *)

Definition Listener := nat.

Inductive Event : Type :=
| onAnimationStart (l : Listener)
| onAnimationEnd (l : Listener).

Definition is_start (e : Event) : bool :=
  match e with onAnimationStart _ => true | onAnimationEnd _ => false end.

Module Animation.

(** The operations of a child [Animation].  A child is held by value, so
    each operation acts on that child alone.
    [getTransformation currentTime temp scale a] is
    [a.getTransformation(currentTime, temp, scale)]: the returned flag,
    the transformation written to [temp], and the child afterwards.
    The set calls all of them but [reset], which is here to say what a
    child's own [reset()] would leave. *)
Class Ops (A T F : Type) := {
  getStartOffset : A -> Z;
  getDuration : A -> Z;
  getStartTime : A -> Z;
  setStartTime : Z -> A -> A;
  reset : A -> A;
  hasStarted : A -> bool;
  hasEnded : A -> bool;
  computeDurationHint : A -> Z;
  getTransformation : Z -> T -> F -> A -> bool * T * A
}.

(** The inherited members that AnimationSet.h reads and writes by name;
    [others] is the rest of the base-class state. *)
Record Fields (B : Type) : Type := mkFields {
  mStartOffset : Z;
  mDuration : Z;
  mStartTime : Z;
  mStarted : bool;
  mEnded : bool;
  mListener : option Listener;
  others : B
}.
Arguments mkFields {B}.
Arguments mStartOffset {B}.
Arguments mDuration {B}.
Arguments mStartTime {B}.
Arguments mStarted {B}.
Arguments mEnded {B}.
Arguments mListener {B}.
Arguments others {B}.

(** The base-class methods the set invokes on itself whose bodies are not
    determined by AnimationSet.h. *)
Class Base (B F : Type) := {
  base_setStartTime : Z -> Fields B -> Fields B;
  base_reset : Fields B -> Fields B;
  getScaleFactor : Fields B -> F
}.

(** Modelled from the spec: [Animation::setDuration] (declared outside this
    file) stores the duration; the set reads [mDuration] back right after
    the call. *)
Definition base_setDuration {B : Type} (durationMillis : Z) (b : Fields B) : Fields B :=
  mkFields (mStartOffset b) durationMillis (mStartTime b) (mStarted b) (mEnded b)
           (mListener b) (others b).

(** Modelled from the spec: [Animation::setStartOffset] (declared outside
    this file) stores the start offset. *)
Definition base_setStartOffset {B : Type} (startOffset : Z) (b : Fields B) : Fields B :=
  mkFields startOffset (mDuration b) (mStartTime b) (mStarted b) (mEnded b)
           (mListener b) (others b).

Definition with_mStartTime {B : Type} (v : Z) (b : Fields B) : Fields B :=
  mkFields (mStartOffset b) (mDuration b) v (mStarted b) (mEnded b)
           (mListener b) (others b).

Definition with_mDuration {B : Type} (v : Z) (b : Fields B) : Fields B :=
  mkFields (mStartOffset b) v (mStartTime b) (mStarted b) (mEnded b)
           (mListener b) (others b).

Definition with_mStarted {B : Type} (v : bool) (b : Fields B) : Fields B :=
  mkFields (mStartOffset b) (mDuration b) (mStartTime b) v (mEnded b)
           (mListener b) (others b).

Definition with_mEnded {B : Type} (v : bool) (b : Fields B) : Fields B :=
  mkFields (mStartOffset b) (mDuration b) (mStartTime b) (mStarted b) v
           (mListener b) (others b).

End Animation.

(** The members of [Animation] used by the rest of AnimationSet.h. *)

Module AnimationMore.

(** Two more operations the set calls on a child: [hasAlpha()], read as a
    getter, and [scaleCurrentDuration(scale)]. *)
Class Ops (A F : Type) := {
  hasAlpha : A -> bool;
  scaleCurrentDuration : F -> A -> A
}.

(** More base-class methods the set invokes on itself whose bodies are not
    determined by AnimationSet.h. *)
Class Base (B : Type) := {
  base_setFillAfter : bool -> Animation.Fields B -> Animation.Fields B;
  base_setFillBefore : bool -> Animation.Fields B -> Animation.Fields B;
  base_setRepeatMode : Z -> Animation.Fields B -> Animation.Fields B;
  ensureInterpolator : Animation.Fields B -> Animation.Fields B
}.

End AnimationMore.

(** ** AnimationSet *)

Module AnimationSet.

Definition PROPERTY_FILL_AFTER_MASK : Z := 0x1.
Definition PROPERTY_FILL_BEFORE_MASK : Z := 0x2.
Definition PROPERTY_REPEAT_MODE_MASK : Z := 0x4.
Definition PROPERTY_START_OFFSET_MASK : Z := 0x8.
Definition PROPERTY_SHARE_INTERPOLATOR_MASK : Z := 0x10.
Definition PROPERTY_DURATION_MASK : Z := 0x20.
Definition PROPERTY_MORPH_MATRIX_MASK : Z := 0x40.
Definition PROPERTY_CHANGE_BOUNDS_MASK : Z := 0x80.

Section Model.

Context {A T F B : Type}.
Context `{TO : Transformation.Ops T}.
Context `{AO : Animation.Ops A T F}.
Context `{BO : Animation.Base B F}.

(** The object: the inherited part and the set's own members. *)
Record t : Type := mk {
  super : Animation.Fields B;
  mFlags : Z;
  mDirty : bool;
  mHasAlpha : bool;
  mAnimations : list A;
  mTempTransformation : T;
  mLastEnd : Z
}.

Definition with_super (b : Animation.Fields B) (s : t) : t :=
  mk b (mFlags s) (mDirty s) (mHasAlpha s) (mAnimations s)
     (mTempTransformation s) (mLastEnd s).

Definition with_mFlags (v : Z) (s : t) : t :=
  mk (super s) v (mDirty s) (mHasAlpha s) (mAnimations s)
     (mTempTransformation s) (mLastEnd s).

Definition with_mDirty (v : bool) (s : t) : t :=
  mk (super s) (mFlags s) v (mHasAlpha s) (mAnimations s)
     (mTempTransformation s) (mLastEnd s).

Definition with_mAnimations (v : list A) (s : t) : t :=
  mk (super s) (mFlags s) (mDirty s) (mHasAlpha s) v
     (mTempTransformation s) (mLastEnd s).

Definition with_mLastEnd (v : Z) (s : t) : t :=
  mk (super s) (mFlags s) (mDirty s) (mHasAlpha s) (mAnimations s)
     (mTempTransformation s) v.

Definition mStartOffset (s : t) : Z := Animation.mStartOffset (super s).
Definition mDuration (s : t) : Z := Animation.mDuration (super s).
Definition mStartTime (s : t) : Z := Animation.mStartTime (super s).
Definition mStarted (s : t) : bool := Animation.mStarted (super s).
Definition mEnded (s : t) : bool := Animation.mEnded (super s).
Definition mListener (s : t) : option Listener := Animation.mListener (super s).

(** [(mFlags & PROPERTY_DURATION_MASK) == PROPERTY_DURATION_MASK] *)
Definition durationSet (s : t) : bool :=
  Z.land (mFlags s) PROPERTY_DURATION_MASK =? PROPERTY_DURATION_MASK.

Definition setFlag (mask : Z) (value : bool) (s : t) : t :=
  if value then with_mFlags (Z.lor (mFlags s) mask) s
  else with_mFlags (Z.land (mFlags s) (Z.lnot mask)) s.

Definition init (s : t) : t :=
  with_super (Animation.with_mStartTime 0 (super s)) s.

(** The constructor.  [mFlags] starts at 0; the base-class constructor
    leaves [base0]; [mDirty], [mHasAlpha] and [mLastEnd] have no
    initialiser and hold whatever [dirty0], [hasAlpha0] and [lastEnd0]
    stand for. *)
Definition new (base0 : Animation.Fields B) (dirty0 hasAlpha0 : bool)
           (lastEnd0 : Z) (temp0 : T) (shareInterpolator : bool) : t :=
  init (setFlag PROPERTY_SHARE_INTERPOLATOR_MASK shareInterpolator
                (mk base0 0 dirty0 hasAlpha0 [] temp0 lastEnd0)).

Definition setStartOffset (startOffset : Z) (s : t) : t :=
  let s := with_mFlags (Z.lor (mFlags s) PROPERTY_START_OFFSET_MASK) s in
  with_super (Animation.base_setStartOffset startOffset (super s)) s.

Definition setDuration (durationMillis : Z) (s : t) : t :=
  let s := with_mFlags (Z.lor (mFlags s) PROPERTY_DURATION_MASK) s in
  let s := with_super (Animation.base_setDuration durationMillis (super s)) s in
  with_mLastEnd (ladd (mStartOffset s) (mDuration s)) s.

Definition addAnimation (a : A) (s : t) : t :=
  let s := with_mAnimations (mAnimations s ++ [a]) s in
  let s :=
    if durationSet s then
      with_mLastEnd (ladd (mStartOffset s) (mDuration s)) s
    else if (length (mAnimations s) =? 1)%nat then
      let s := with_super
                 (Animation.with_mDuration
                    (ladd (Animation.getStartOffset a) (Animation.getDuration a))
                    (super s)) s in
      with_mLastEnd (ladd (mStartOffset s) (mDuration s)) s
    else
      let s := with_mLastEnd
                 (smax (mLastEnd s)
                       (ladd (Animation.getStartOffset a) (Animation.getDuration a))) s in
      with_super (Animation.with_mDuration (lsub (mLastEnd s) (mStartOffset s)) (super s)) s
  in
  with_mDirty true s.

(** [mAnimations[i]] as a reference: the element is updated in place.
    The loops below only use indices below [GetCount()]; outside that
    range the body leaves the array as it is. *)
Definition update_child (i : nat) (f : A -> A) (l : list A) : list A :=
  match l !! i with
  | Some a => <[i := f a]> l
  | None => l
  end.

Definition setStartTime (startTimeMillis : Z) (s : t) : t :=
  let s := with_super (Animation.base_setStartTime startTimeMillis (super s)) s in
  let count := length (mAnimations s) in
  with_mAnimations
    (for_up count 0
            (fun i l => update_child i (Animation.setStartTime startTimeMillis) l)
            (mAnimations s)) s.

Definition getStartTime (s : t) : Z :=
  let count := length (mAnimations s) in
  for_up count 0
         (fun i startTime =>
            match mAnimations s !! i with
            | Some a => smin startTime (Animation.getStartTime a)
            | None => startTime
            end)
         100000.

Definition getDuration (s : t) : Z :=
  let count := length (mAnimations s) in
  if durationSet s then mDuration s
  else
    for_up count 0
           (fun i duration =>
              match mAnimations s !! i with
              | Some a => smax duration (Animation.getDuration a)
              | None => duration
              end)
           0.

Definition computeDurationHint (s : t) : Z :=
  let count := length (mAnimations s) in
  for_down count
           (fun i duration =>
              match mAnimations s !! i with
              | Some a =>
                  let d := Animation.computeDurationHint a in
                  if d >? duration then d else duration
              | None => duration
              end)
           0.

(** The locals of [getTransformation] while its loop runs, with the
    child array the references [mAnimations[i]] point into. *)
Record Frame : Type := mkFrame {
  f_t : T;
  f_temp : T;
  f_more : bool;
  f_started : bool;
  f_ended : bool;
  f_anims : list A
}.

Definition frame_body (currentTime : Z) (scale : F) (i : nat) (fr : Frame) : Frame :=
  match f_anims fr !! i with
  | Some a =>
      let temp := Transformation.clear (f_temp fr) in
      let '(r, temp, a) := Animation.getTransformation currentTime temp scale a in
      let more := r || f_more fr in
      let t := Transformation.compose (f_t fr) temp in
      let started := f_started fr || Animation.hasStarted a in
      let ended := Animation.hasEnded a && f_ended fr in
      mkFrame t temp more started ended (<[i := a]> (f_anims fr))
  | None => fr
  end.

(** The frame when the loop of [getTransformation] is left. *)
Definition children_pass (currentTime : Z) (t0 : T) (s : t) : Frame :=
  let count := length (mAnimations s) in
  let temp := mTempTransformation s in
  for_down count
           (frame_body currentTime (Animation.getScaleFactor (super s)))
           (mkFrame (Transformation.clear t0) temp false false true (mAnimations s)).

(** The listener calls of one [getTransformation], in program order. *)
Definition start_events (started : bool) (s : t) : list Event :=
  if started && negb (mStarted s) then
    match mListener s with
    | Some l => [onAnimationStart l]
    | None => []
    end
  else [].

Definition end_events (ended : bool) (s : t) : list Event :=
  if negb (eqb ended (mEnded s)) then
    match mListener s with
    | Some l => [onAnimationEnd l]
    | None => []
    end
  else [].

(** [getTransformation(currentTime, t)]: the returned flag, the
    transformation left in [t], the object afterwards and the listener
    calls made.  The local [temp] is a copy of [mTempTransformation],
    which is therefore left as it was. *)
Definition getTransformation (currentTime : Z) (t0 : T) (s : t)
  : bool * T * t * list Event :=
  let fr := children_pass currentTime t0 s in
  let s := with_mAnimations (f_anims fr) s in
  let ev1 := start_events (f_started fr) s in
  let s :=
    if f_started fr && negb (mStarted s)
    then with_super (Animation.with_mStarted true (super s)) s
    else s in
  let ev2 := end_events (f_ended fr) s in
  let s :=
    if negb (eqb (f_ended fr) (mEnded s))
    then with_super (Animation.with_mEnded (f_ended fr) (super s)) s
    else s in
  (f_more fr, f_t fr, s, ev1 ++ ev2).

Definition restoreChildrenStartOffset (s : t) : t := s.

Definition reset (s : t) : t :=
  let s := with_super (Animation.base_reset (super s)) s in
  restoreChildrenStartOffset s.

End Model.

Arguments t : clear implicits.

Section Rest.

Context {A T F B : Type}.
Context `{AM : AnimationMore.Ops A F}.
Context `{BM : AnimationMore.Base B}.

Definition with_mHasAlpha (v : bool) (s : t A T B) : t A T B :=
  mk (super s) (mFlags s) (mDirty s) v (mAnimations s)
     (mTempTransformation s) (mLastEnd s).

Definition setFillAfter (fillAfter : bool) (s : t A T B) : t A T B :=
  let s := with_mFlags (Z.lor (mFlags s) PROPERTY_FILL_AFTER_MASK) s in
  with_super (AnimationMore.base_setFillAfter fillAfter (super s)) s.

Definition setFillBefore (fillBefore : bool) (s : t A T B) : t A T B :=
  let s := with_mFlags (Z.lor (mFlags s) PROPERTY_FILL_BEFORE_MASK) s in
  with_super (AnimationMore.base_setFillBefore fillBefore (super s)) s.

Definition setRepeatMode (repeatMode : Z) (s : t A T B) : t A T B :=
  let s := with_mFlags (Z.lor (mFlags s) PROPERTY_REPEAT_MODE_MASK) s in
  with_super (AnimationMore.base_setRepeatMode repeatMode (super s)) s.

(** [hasAlpha()]: the returned flag and the object afterwards.  The scan
    stops at the first child that has alpha. *)
Definition hasAlpha (s : t A T B) : bool * t A T B :=
  if mDirty s then
    let s := with_mHasAlpha false s in
    let s := with_mDirty false s in
    let count := length (mAnimations s) in
    let s :=
      for_up_until count 0
        (fun i s =>
           match mAnimations s !! i with
           | Some a =>
               if AnimationMore.hasAlpha a then (with_mHasAlpha true s, true)
               else (s, false)
           | None => (s, false)
           end)
        s in
    (mHasAlpha s, s)
  else (mHasAlpha s, s).

Definition scaleCurrentDuration (scale : F) (s : t A T B) : t A T B :=
  let count := length (mAnimations s) in
  with_mAnimations
    (for_up count 0
            (fun i l => update_child i (AnimationMore.scaleCurrentDuration scale) l)
            (mAnimations s)) s.

(** [initialize(width, height, parentWidth, parentHeight)]: of the six flags
    it reads only [shareInterpolator] is used, the loop over the children
    being commented out in the source. *)
Definition initialize (width height parentWidth parentHeight : Z) (s : t A T B) : t A T B :=
  let shareInterpolator :=
    Z.land (mFlags s) PROPERTY_SHARE_INTERPOLATOR_MASK =? PROPERTY_SHARE_INTERPOLATOR_MASK in
  if shareInterpolator
  then with_super (AnimationMore.ensureInterpolator (super s)) s
  else s.

End Rest.

End AnimationSet.


(** ** Specification-level notions *)

(** How many events of a kind a trace holds. *)
Definition count_events (p : Event -> bool) (evs : list Event) : nat :=
  length (List.filter p evs).

Definition is_end (e : Event) : bool :=
  match e with onAnimationStart _ => false | onAnimationEnd _ => true end.

(** The end time of a child as [addAnimation] computes it,
    [a.getStartOffset() + a.getDuration()]. *)
Definition child_end {A T F : Type} `{Animation.Ops A T F} (a : A) : Z :=
  ladd (Animation.getStartOffset a) (Animation.getDuration a).

(** The largest (smallest) element of a non-empty list. *)
Definition maximum (l : list Z) : option Z :=
  match l with
  | [] => None
  | x :: r => Some (fold_left Z.max r x)
  end.

Definition minimum (l : list Z) : option Z :=
  match l with
  | [] => None
  | x :: r => Some (fold_left Z.min r x)
  end.

(** The largest element of a list, and 0 when none exceeds it. *)
Definition max0 (l : list Z) : Z := fold_right Z.max 0 l.

Section Notions.

Context {A T F B : Type}.
Context `{TO : Transformation.Ops T}.
Context `{AO : Animation.Ops A T F}.
Context `{BO : Animation.Base B F}.

Abbreviation aset := (AnimationSet.t A T B).

(** A set grown by successive [addAnimation] calls. *)
Definition build (l : list A) (s : aset) : aset :=
  fold_left (fun s a => AnimationSet.addAnimation a s) l s.

(** What one child contributes to a frame at [currentTime]: the result of its
    own [getTransformation] on a cleared transformation. *)
Definition child_frame (currentTime : Z) (scale : F) (a : A) : bool * T * A :=
  Animation.getTransformation currentTime Transformation.identity scale a.

Definition child_more (currentTime : Z) (scale : F) (a : A) : bool :=
  fst (fst (child_frame currentTime scale a)).

Definition child_transform (currentTime : Z) (scale : F) (a : A) : T :=
  snd (fst (child_frame currentTime scale a)).

Definition child_after (currentTime : Z) (scale : F) (a : A) : A :=
  snd (child_frame currentTime scale a).

(** The timing invariant of a set whose duration is not overridden: with
    children present, [mLastEnd] is the largest child end and [mDuration] is
    [mLastEnd - mStartOffset]. *)
Definition timing_inv (s : aset) : Prop :=
  AnimationSet.durationSet s = false ->
  AnimationSet.mAnimations s <> [] ->
  maximum (map child_end (AnimationSet.mAnimations s)) = Some (AnimationSet.mLastEnd s)
  /\ AnimationSet.mDuration s
     = lsub (AnimationSet.mLastEnd s) (AnimationSet.mStartOffset s).

(** The components of the result of [getTransformation]. *)
Definition gt_more (r : bool * T * aset * list Event) : bool := fst (fst (fst r)).
Definition gt_t (r : bool * T * aset * list Event) : T := snd (fst (fst r)).
Definition gt_state (r : bool * T * aset * list Event) : aset := snd (fst r).
Definition gt_events (r : bool * T * aset * list Event) : list Event := snd r.

(** The [started] and [ended] locals of a [getTransformation] call. *)
Definition agg_started (currentTime : Z) (t0 : T) (s : aset) : bool :=
  AnimationSet.f_started (AnimationSet.children_pass currentTime t0 s).

Definition agg_ended (currentTime : Z) (t0 : T) (s : aset) : bool :=
  AnimationSet.f_ended (AnimationSet.children_pass currentTime t0 s).

(** Successive [getTransformation] calls on one object: each call is recorded
    with the object as the call found it and the call's arguments. *)
Fixpoint run (calls : list (Z * T)) (s : aset) : list (aset * (Z * T)) :=
  match calls with
  | [] => []
  | c :: rest =>
      (s, c) :: run rest (gt_state (AnimationSet.getTransformation (fst c) (snd c) s))
  end.

Definition call_events (c : aset * (Z * T)) : list Event :=
  gt_events (AnimationSet.getTransformation (fst (snd c)) (snd (snd c)) (fst c)).

Definition call_started (c : aset * (Z * T)) : bool :=
  agg_started (fst (snd c)) (snd (snd c)) (fst c).

Definition call_ended (c : aset * (Z * T)) : bool :=
  agg_ended (fst (snd c)) (snd (snd c)) (fst c).

Definition call_post (c : aset * (Z * T)) : aset :=
  gt_state (AnimationSet.getTransformation (fst (snd c)) (snd (snd c)) (fst c)).

Definition all_events (tr : list (aset * (Z * T))) : list Event :=
  concat (map call_events tr).

(** The call makes the start callback: [started && !mStarted] holds when the
    loop is left. *)
Definition call_starts (c : aset * (Z * T)) : bool :=
  call_started c && negb (AnimationSet.mStarted (fst c)).

(** The call makes the end callback: [ended != mEnded] holds. *)
Definition call_toggles (c : aset * (Z * T)) : bool :=
  negb (eqb (call_ended c) (AnimationSet.mEnded (fst c))).

(** The object after successive [getTransformation] calls. *)
Definition run_final (calls : list (Z * T)) (s : aset) : aset :=
  fold_left (fun s c => gt_state (AnimationSet.getTransformation (fst c) (snd c) s))
            calls s.

End Notions.

(** ** A reference instance

    Children with integral timing whose transformation is a list of tags
    composed by concatenation, which does not commute. *)

Module Sample.

Record Anim : Type := mkAnim {
  a_startOffset : Z;
  a_duration : Z;
  a_startTime : Z;
  a_started : bool;
  a_ended : bool;
  a_tag : nat
}.

#[global] Instance TagOps : Transformation.Ops (list nat) := {
  identity := [];
  compose := fun t u => t ++ u
}.

Definition anim_getTransformation (currentTime : Z) (temp : list nat) (scale : unit)
  (a : Anim) : bool * list nat * Anim :=
  let st := if a_startTime a =? -1 then currentTime else a_startTime a in
  let elapsed := currentTime - (st + a_startOffset a) in
  let expired := a_duration a <=? elapsed in
  let running := 0 <=? elapsed in
  (negb expired,
   if running then temp ++ [a_tag a] else temp,
   mkAnim (a_startOffset a) (a_duration a) st
          (a_started a || running) (a_ended a || expired) (a_tag a)).

#[global] Instance AnimOps : Animation.Ops Anim (list nat) unit := {
  getStartOffset := a_startOffset;
  getDuration := a_duration;
  getStartTime := a_startTime;
  setStartTime := fun t a =>
    mkAnim (a_startOffset a) (a_duration a) t false false (a_tag a);
  reset := fun a =>
    mkAnim (a_startOffset a) (a_duration a) (a_startTime a) false false (a_tag a);
  hasStarted := a_started;
  hasEnded := a_ended;
  computeDurationHint := fun a => a_startOffset a + a_duration a;
  getTransformation := anim_getTransformation
}.

#[global] Instance BaseOps : Animation.Base unit unit := {
  base_setStartTime := fun t b =>
    Animation.with_mStarted false
      (Animation.with_mEnded false (Animation.with_mStartTime t b));
  base_reset := fun b => b;
  getScaleFactor := fun _ => tt
}.

#[global] Instance MoreOps : AnimationMore.Ops Anim unit := {
  hasAlpha := fun a => Nat.eqb (a_tag a) 2;
  scaleCurrentDuration := fun _ a => a
}.

#[global] Instance MoreBase : AnimationMore.Base unit := {
  base_setFillAfter := fun _ b => b;
  base_setFillBefore := fun _ b => b;
  base_setRepeatMode := fun _ b => b;
  ensureInterpolator := fun b => b
}.

Definition base0 (listener : option Listener) : Animation.Fields unit :=
  Animation.mkFields 0 0 (-1) false false listener tt.

(** A set as the constructor leaves it. *)
Definition fresh (listener : option Listener) : AnimationSet.t Anim (list nat) unit :=
  AnimationSet.new (base0 listener) false false 0 [] false.

Definition anim (startOffset duration : Z) (tag : nat) : Anim :=
  mkAnim startOffset duration (-1) false false tag.

Definition tags := list nat.

(** One child that starts 100 ms into the set and lasts 50 ms. *)
Definition one_child : AnimationSet.t Anim tags unit :=
  build [anim 100 50 1] (fresh None).

(** A set given a start offset of 10 before its first child is added. *)
Definition offset_first : AnimationSet.t Anim tags unit :=
  AnimationSet.addAnimation (anim 0 100 1) (AnimationSet.setStartOffset 10 (fresh None)).

(** [setDuration(100)] followed by [setStartOffset(5)]. *)
Definition overridden : AnimationSet.t Anim tags unit :=
  AnimationSet.setStartOffset 5 (AnimationSet.setDuration 100 (fresh None)).

(** One child whose start time is the timestamp 200000. *)
Definition late_child : AnimationSet.t Anim tags unit :=
  build [mkAnim 0 300 200000 false false 1] (fresh None).

(** Two children, of 10 ms and 20 ms, with a listener attached. *)
Definition pair : AnimationSet.t Anim tags unit :=
  build [anim 0 10 1; anim 0 20 2] (fresh (Some 7%nat)).

(** Four successive frames, by timestamp. *)
Definition frames : list (Z * tags) := [(5, []); (15, []); (25, []); (30, [])].

(** [pair] after a first frame at time 5. *)
Definition pair_running : AnimationSet.t Anim tags unit :=
  gt_state (AnimationSet.getTransformation 5 [] pair).

End Sample.


(** * Properties *)

(** ** Arithmetic of [long] *)

Lemma long_modulus_pos : 0 < long_modulus.
Proof. reflexivity. Qed.

Lemma long_modulus_half : long_modulus = 2 * long_half.
Proof. reflexivity. Qed.

Lemma wrap_in_long (x : Z) : in_long (wrap x).
Proof.
  unfold in_long, wrap.
  pose proof (Z.mod_pos_bound (x + long_half) long_modulus long_modulus_pos) as Hb.
  rewrite long_modulus_half in *. lia.
Qed.

Lemma wrap_id (x : Z) : in_long x -> wrap x = x.
Proof.
  unfold in_long, wrap. intros Hx.
  rewrite Z.mod_small; [lia | rewrite long_modulus_half; lia].
Qed.

Lemma wrap_wrap (x : Z) : wrap (wrap x) = wrap x.
Proof. apply wrap_id, wrap_in_long. Qed.

Lemma wrap_congr (x y : Z) :
  x mod long_modulus = y mod long_modulus -> wrap x = wrap y.
Proof.
  unfold wrap. intros Hxy.
  rewrite (Z.add_mod x), (Z.add_mod y), Hxy by (pose proof long_modulus_pos; lia).
  reflexivity.
Qed.

Lemma wrap_mod (x : Z) : wrap x mod long_modulus = x mod long_modulus.
Proof.
  unfold wrap.
  pose proof long_modulus_pos as Hm.
  rewrite Zminus_mod, Zmod_mod, <- Zminus_mod.
  f_equal. lia.
Qed.

Lemma lsub_ladd_cancel (o e : Z) : lsub (ladd o e) o = wrap e.
Proof.
  unfold lsub, ladd. apply wrap_congr.
  pose proof long_modulus_pos as Hm.
  rewrite Zminus_mod, wrap_mod, <- Zminus_mod.
  f_equal. lia.
Qed.

Lemma ladd_0_l (e : Z) : ladd 0 e = wrap e.
Proof. reflexivity. Qed.

Lemma lsub_0_r (e : Z) : lsub e 0 = wrap e.
Proof. unfold lsub. f_equal. lia. Qed.

Lemma smax_max (a b : Z) : smax a b = Z.max a b.
Proof. unfold smax. destruct (Z.gtb_spec a b); lia. Qed.

Lemma smin_min (a b : Z) : smin a b = Z.min a b.
Proof. unfold smin. destruct (Z.ltb_spec a b); lia. Qed.

(** ** Largest and smallest elements *)

Lemma fold_left_max_ge (l : list Z) (x : Z) : x <= fold_left Z.max l x.
Proof.
  revert x. induction l as [|y l IH]; intros x; simpl; [lia|].
  specialize (IH (Z.max x y)). lia.
Qed.

Lemma fold_left_max_bound (l : list Z) (x y : Z) :
  In y l -> y <= fold_left Z.max l x.
Proof.
  revert x. induction l as [|z l IH]; intros x; simpl; [tauto|].
  intros [-> | Hin]; [|auto].
  pose proof (fold_left_max_ge l (Z.max x y)). lia.
Qed.

Lemma fold_left_max_in (l : list Z) (x : Z) :
  fold_left Z.max l x = x \/ In (fold_left Z.max l x) l.
Proof.
  revert x. induction l as [|z l IH]; intros x; simpl; [auto|].
  destruct (IH (Z.max x z)) as [He | Hin]; [|auto].
  rewrite He. destruct (Z.max_spec x z) as [[_ ->] | [_ ->]]; auto.
Qed.

Lemma maximum_spec (l : list Z) (m : Z) :
  maximum l = Some m -> In m l /\ (forall x, In x l -> x <= m).
Proof.
  destruct l as [|x r]; simpl; [discriminate|].
  intros [= <-]. split.
  - destruct (fold_left_max_in r x) as [-> | Hin]; auto.
  - intros y [<- | Hin].
    + apply fold_left_max_ge.
    + now apply fold_left_max_bound.
Qed.

Lemma maximum_snoc (l : list Z) (m e : Z) :
  maximum l = Some m -> maximum (l ++ [e]) = Some (Z.max m e).
Proof.
  destruct l as [|x r]; simpl; [discriminate|].
  intros [= <-]. now rewrite fold_left_app.
Qed.

Lemma fold_left_max_comm (l : list Z) (x y : Z) :
  fold_left Z.max l (Z.max x y) = Z.max x (fold_left Z.max l y).
Proof.
  revert y. induction l as [|z l IH]; intros y; simpl; [reflexivity|].
  rewrite <- IH. f_equal. lia.
Qed.

Lemma fold_left_max_max0 (l : list Z) : fold_left Z.max l 0 = max0 l.
Proof.
  unfold max0. induction l as [|z l IH]; simpl; [reflexivity|].
  rewrite <- IH, <- fold_left_max_comm. f_equal. lia.
Qed.

Lemma max0_nonneg (l : list Z) : 0 <= max0 l.
Proof. unfold max0. induction l; simpl; lia. Qed.

Lemma max0_maximum (l : list Z) (m : Z) :
  maximum l = Some m -> max0 l = Z.max 0 m.
Proof.
  destruct l as [|x r]; simpl; [discriminate|].
  intros [= <-].
  unfold max0. cbn [fold_right]. fold (max0 r).
  rewrite <- fold_left_max_max0, <- !fold_left_max_comm.
  f_equal. lia.
Qed.

Lemma fold_left_min_comm (l : list Z) (x y : Z) :
  fold_left Z.min l (Z.min x y) = Z.min x (fold_left Z.min l y).
Proof.
  revert y. induction l as [|z l IH]; intros y; simpl; [reflexivity|].
  rewrite <- IH. f_equal. lia.
Qed.

(** ** Counted loops over an array *)

Lemma for_up_read {X St : Type} (g : St -> X -> St) (l pre : list X) (acc : St) :
  for_up (length l) (length pre)
         (fun i st => match (pre ++ l) !! i with Some a => g st a | None => st end) acc
  = fold_left g l acc.
Proof.
  revert pre acc. induction l as [|x l IH]; intros pre acc; simpl; [reflexivity|].
  rewrite list_lookup_middle by reflexivity.
  specialize (IH (pre ++ [x]) (g acc x)).
  rewrite length_app, Nat.add_1_r, <- app_assoc in IH. exact IH.
Qed.

Lemma for_up_read0 {X St : Type} (g : St -> X -> St) (l : list X) (acc : St) :
  for_up (length l) 0
         (fun i st => match l !! i with Some a => g st a | None => st end) acc
  = fold_left g l acc.
Proof. exact (for_up_read g l [] acc). Qed.

Lemma for_down_read {X St : Type} (g : St -> X -> St) (l suf : list X) (acc : St) :
  for_down (length l)
           (fun i st => match (l ++ suf) !! i with Some a => g st a | None => st end) acc
  = fold_left g (rev l) acc.
Proof.
  revert suf acc. induction l as [|x l IH] using rev_ind; intros suf acc; [reflexivity|].
  rewrite length_app, Nat.add_1_r, rev_unit. simpl.
  rewrite <- app_assoc. simpl.
  rewrite list_lookup_middle by reflexivity.
  apply IH.
Qed.

Lemma fold_left_smax_map {X : Type} (h : X -> Z) (l : list X) (x : Z) :
  fold_left (fun d a => smax d (h a)) l x = fold_left Z.max (map h l) x.
Proof.
  revert x. induction l as [|a l IH]; intros x; simpl; [reflexivity|].
  now rewrite IH, smax_max.
Qed.

Lemma fold_left_smin_map {X : Type} (h : X -> Z) (l : list X) (x : Z) :
  fold_left (fun d a => smin d (h a)) l x = fold_left Z.min (map h l) x.
Proof.
  revert x. induction l as [|a l IH]; intros x; simpl; [reflexivity|].
  now rewrite IH, smin_min.
Qed.

Lemma fold_left_min_le (l : list Z) (x : Z) : fold_left Z.min l x <= x.
Proof.
  revert x. induction l as [|y l IH]; intros x; simpl; [lia|].
  specialize (IH (Z.min x y)). lia.
Qed.

Lemma land_lor_same (f m : Z) : Z.land (Z.lor f m) m = m.
Proof.
  apply Z.bits_inj'. intros n Hn.
  rewrite Z.land_spec, Z.lor_spec.
  destruct (Z.testbit f n), (Z.testbit m n); reflexivity.
Qed.

(** ** Timing *)

Section Timing.

Context {A T F B : Type}.
Context `{TO : Transformation.Ops T}.
Context `{AO : Animation.Ops A T F}.
Context `{BO : Animation.Base B F}.

Abbreviation aset := (AnimationSet.t A T B).

Implicit Types (s : aset) (a : A) (l : list A).

Lemma setDuration_durationSet (d : Z) s :
  AnimationSet.durationSet (AnimationSet.setDuration d s) = true.
Proof.
  unfold AnimationSet.durationSet, AnimationSet.setDuration. simpl.
  rewrite land_lor_same. apply Z.eqb_refl.
Qed.

Lemma setDuration_lastEnd (d : Z) s :
  AnimationSet.mLastEnd (AnimationSet.setDuration d s)
  = ladd (AnimationSet.mStartOffset (AnimationSet.setDuration d s))
         (AnimationSet.mDuration (AnimationSet.setDuration d s)).
Proof. reflexivity. Qed.

Lemma new_durationSet (b : Animation.Fields B) (d h : bool) (e : Z) (tmp : T) (share : bool) :
  AnimationSet.durationSet (AnimationSet.new b d h e tmp share : aset) = false.
Proof. destruct share; reflexivity. Qed.

Lemma new_children (b : Animation.Fields B) (d h : bool) (e : Z) (tmp : T) (share : bool) :
  AnimationSet.mAnimations (AnimationSet.new b d h e tmp share : aset) = [].
Proof. destruct share; reflexivity. Qed.

Lemma addAnimation_children a s :
  AnimationSet.mAnimations (AnimationSet.addAnimation a s) = AnimationSet.mAnimations s ++ [a].
Proof.
  unfold AnimationSet.addAnimation.
  repeat match goal with |- context [if ?c then _ else _] => destruct c end; reflexivity.
Qed.

Lemma addAnimation_flags a s :
  AnimationSet.mFlags (AnimationSet.addAnimation a s) = AnimationSet.mFlags s.
Proof.
  unfold AnimationSet.addAnimation.
  repeat match goal with |- context [if ?c then _ else _] => destruct c end; reflexivity.
Qed.

Lemma addAnimation_durationSet a s :
  AnimationSet.durationSet (AnimationSet.addAnimation a s) = AnimationSet.durationSet s.
Proof. unfold AnimationSet.durationSet. now rewrite addAnimation_flags. Qed.

Lemma addAnimation_startOffset a s :
  AnimationSet.mStartOffset (AnimationSet.addAnimation a s) = AnimationSet.mStartOffset s.
Proof.
  unfold AnimationSet.addAnimation.
  repeat match goal with |- context [if ?c then _ else _] => destruct c end; reflexivity.
Qed.

Lemma build_children l s :
  AnimationSet.mAnimations (build l s) = AnimationSet.mAnimations s ++ l.
Proof.
  unfold build. revert s. induction l as [|a l IH]; intros s; cbn [fold_left].
  - now rewrite app_nil_r.
  - rewrite IH, addAnimation_children, <- app_assoc. reflexivity.
Qed.

Lemma build_durationSet l s :
  AnimationSet.durationSet (build l s) = AnimationSet.durationSet s.
Proof.
  unfold build. revert s. induction l as [|a l IH]; intros s; cbn [fold_left]; [reflexivity|].
  now rewrite IH, addAnimation_durationSet.
Qed.

Lemma getDuration_unfold s :
  AnimationSet.getDuration s
  = if AnimationSet.durationSet s then AnimationSet.mDuration s
    else max0 (map Animation.getDuration (AnimationSet.mAnimations s)).
Proof.
  unfold AnimationSet.getDuration.
  destruct (AnimationSet.durationSet s); [reflexivity|].
  rewrite (for_up_read0 (fun d a => smax d (Animation.getDuration a))).
  now rewrite fold_left_smax_map, fold_left_max_max0.
Qed.

Lemma getStartTime_unfold s :
  AnimationSet.getStartTime s
  = fold_left Z.min (map Animation.getStartTime (AnimationSet.mAnimations s)) 100000.
Proof.
  unfold AnimationSet.getStartTime.
  rewrite (for_up_read0 (fun d a => smin d (Animation.getStartTime a))).
  apply fold_left_smin_map.
Qed.

Lemma getStartTime_capped s : AnimationSet.getStartTime s <= 100000.
Proof. rewrite getStartTime_unfold. apply fold_left_min_le. Qed.

Lemma getStartTime_empty s :
  AnimationSet.mAnimations s = [] -> AnimationSet.getStartTime s = 100000.
Proof. intros H. rewrite getStartTime_unfold, H. reflexivity. Qed.

(** C1, as amended: for a set grown from an empty one by [addAnimation] calls
    alone, with the duration flag clear, [getDuration()] is the largest of the
    children's own [getDuration()] values and at least 0; neither the
    children's start offsets nor the set's start offset enter the result. *)
Theorem getDuration_of_built l s :
  AnimationSet.mAnimations s = [] ->
  AnimationSet.durationSet s = false ->
  AnimationSet.getDuration (build l s) = max0 (map Animation.getDuration l).
Proof.
  intros Hnil Hflag.
  rewrite getDuration_unfold, build_durationSet, Hflag, build_children, Hnil.
  reflexivity.
Qed.

(** C9, as amended: [getDuration()] is the stored override when the duration
    flag is set; otherwise it is the larger of 0 and the largest child
    [getDuration()] (the running value starts at 0), hence 0 for an empty set
    and the largest child duration whenever that is not negative; no start
    offset enters. *)
Theorem getDuration_override_or_longest_child s :
  (AnimationSet.durationSet s = true ->
   AnimationSet.getDuration s = AnimationSet.mDuration s)
  /\ (AnimationSet.durationSet s = false ->
      AnimationSet.getDuration s
      = max0 (map Animation.getDuration (AnimationSet.mAnimations s)))
  /\ (AnimationSet.durationSet s = false ->
      AnimationSet.mAnimations s = [] ->
      AnimationSet.getDuration s = 0)
  /\ (AnimationSet.durationSet s = false ->
      forall m, maximum (map Animation.getDuration (AnimationSet.mAnimations s)) = Some m ->
      AnimationSet.getDuration s = Z.max 0 m
      /\ (0 <= m -> AnimationSet.getDuration s = m)).
Proof.
  rewrite getDuration_unfold.
  split; [|split; [|split]]; intros Hflag; rewrite Hflag; try reflexivity.
  - intros ->. reflexivity.
  - intros m Hm. rewrite (max0_maximum _ _ Hm). split; [reflexivity | lia].
Qed.

Lemma addAnimation_duration_lastEnd a s :
  AnimationSet.durationSet s = false ->
  AnimationSet.mDuration (AnimationSet.addAnimation a s)
  = lsub (AnimationSet.mLastEnd (AnimationSet.addAnimation a s))
         (AnimationSet.mStartOffset (AnimationSet.addAnimation a s)).
Proof.
  intros Hflag. unfold AnimationSet.addAnimation.
  change (AnimationSet.durationSet
            (AnimationSet.with_mAnimations (AnimationSet.mAnimations s ++ [a]) s))
    with (AnimationSet.durationSet s).
  rewrite Hflag.
  destruct (_ =? 1)%nat; cbn.
  - rewrite lsub_ladd_cancel. unfold ladd. now rewrite wrap_wrap.
  - reflexivity.
Qed.

(** C3, as amended: after an [addAnimation] call on a set whose duration flag
    is clear, [mDuration] is [mLastEnd - mStartOffset]; and the invariant
    that [mLastEnd] is moreover the largest child end is kept by every call
    on a set that has children, and set up by the first call when the set's
    start offset is 0. *)
Theorem addAnimation_timing_inv a s :
  (AnimationSet.durationSet s = false ->
   AnimationSet.mDuration (AnimationSet.addAnimation a s)
   = lsub (AnimationSet.mLastEnd (AnimationSet.addAnimation a s))
          (AnimationSet.mStartOffset (AnimationSet.addAnimation a s)))
  /\ (timing_inv s ->
      (AnimationSet.mAnimations s = [] -> AnimationSet.mStartOffset s = 0) ->
      timing_inv (AnimationSet.addAnimation a s)).
Proof.
  split; [apply addAnimation_duration_lastEnd|].
  intros Hinv Hfirst Hflag' _.
  rewrite addAnimation_durationSet in Hflag'.
  split; [|now apply addAnimation_duration_lastEnd].
  rewrite addAnimation_children, map_app. cbn [map].
  unfold AnimationSet.addAnimation.
  change (AnimationSet.durationSet
            (AnimationSet.with_mAnimations (AnimationSet.mAnimations s ++ [a]) s))
    with (AnimationSet.durationSet s).
  rewrite Hflag'. cbn [AnimationSet.mAnimations AnimationSet.with_mAnimations].
  destruct (AnimationSet.mAnimations s) as [|a0 l0] eqn:El.
  - cbn. specialize (Hfirst eq_refl).
    unfold AnimationSet.mStartOffset in Hfirst. rewrite Hfirst.
    rewrite ladd_0_l. unfold child_end, ladd. now rewrite wrap_wrap.
  - assert (Hne : AnimationSet.mAnimations s <> []) by (rewrite El; discriminate).
    destruct (Hinv Hflag' Hne) as [Hmax _]. rewrite El in Hmax.
    replace (length ((a0 :: l0) ++ [a]) =? 1)%nat with false
      by (symmetry; apply Nat.eqb_neq; rewrite length_app; simpl; lia).
    cbn [AnimationSet.mLastEnd AnimationSet.with_mLastEnd AnimationSet.with_super
         AnimationSet.with_mDirty].
    rewrite smax_max.
    apply (maximum_snoc _ _ (child_end a)) in Hmax. exact Hmax.
Qed.

(** C8, as amended: with the duration flag set, [addAnimation] leaves
    [mDuration] and [mStartOffset] as they were and stores
    [mStartOffset + mDuration] in [mLastEnd]; [mLastEnd] therefore keeps its
    value exactly when it already held that sum, as it does right after
    [setDuration]. *)
Theorem addAnimation_with_override a s :
  AnimationSet.durationSet s = true ->
  AnimationSet.mDuration (AnimationSet.addAnimation a s) = AnimationSet.mDuration s
  /\ AnimationSet.mStartOffset (AnimationSet.addAnimation a s) = AnimationSet.mStartOffset s
  /\ AnimationSet.mLastEnd (AnimationSet.addAnimation a s)
     = ladd (AnimationSet.mStartOffset s) (AnimationSet.mDuration s)
  /\ (AnimationSet.mLastEnd s = ladd (AnimationSet.mStartOffset s) (AnimationSet.mDuration s) ->
      AnimationSet.mLastEnd (AnimationSet.addAnimation a s) = AnimationSet.mLastEnd s).
Proof.
  intros Hflag.
  assert (Hl : AnimationSet.mLastEnd (AnimationSet.addAnimation a s)
               = ladd (AnimationSet.mStartOffset s) (AnimationSet.mDuration s)).
  { unfold AnimationSet.addAnimation.
    change (AnimationSet.durationSet
              (AnimationSet.with_mAnimations (AnimationSet.mAnimations s ++ [a]) s))
      with (AnimationSet.durationSet s).
    rewrite Hflag. reflexivity. }
  repeat split.
  - unfold AnimationSet.addAnimation.
    change (AnimationSet.durationSet
              (AnimationSet.with_mAnimations (AnimationSet.mAnimations s ++ [a]) s))
      with (AnimationSet.durationSet s).
    rewrite Hflag. reflexivity.
  - apply addAnimation_startOffset.
  - exact Hl.
  - intros Heq. now rewrite Hl.
Qed.

End Timing.

(** ** Fan-out and frames *)

Lemma for_up_update {X : Type} (f : X -> X) (l done : list X) :
  for_up (length l) (length done)
         (fun i (arr : list X) =>
            match arr !! i with Some a => <[i := f a]> arr | None => arr end)
         (done ++ l)
  = done ++ map f l.
Proof.
  revert done. induction l as [|x l IH]; intros done; simpl; [reflexivity|].
  rewrite list_lookup_middle by reflexivity.
  rewrite insert_app_r_alt by lia. rewrite Nat.sub_diag. simpl.
  specialize (IH (done ++ [f x])).
  rewrite length_app, Nat.add_1_r, <- !app_assoc in IH. exact IH.
Qed.

Lemma bool_eq_iff (b1 b2 : bool) : (b1 = true <-> b2 = true) -> b1 = b2.
Proof. destruct b1, b2; intuition congruence. Qed.

Lemma existsb_perm {X : Type} (p : X -> bool) (l l' : list X) :
  Permutation l l' -> existsb p l = existsb p l'.
Proof.
  intros HP. apply bool_eq_iff. rewrite !existsb_exists.
  split; intros (x & Hin & Hx); exists x; split; auto.
  - now apply (Permutation_in _ HP).
  - now apply (Permutation_in _ (Permutation_sym HP)).
Qed.

Lemma forallb_perm {X : Type} (p : X -> bool) (l l' : list X) :
  Permutation l l' -> forallb p l = forallb p l'.
Proof.
  intros HP. apply bool_eq_iff. rewrite !forallb_forall.
  split; intros H x Hin; apply H.
  - now apply (Permutation_in _ (Permutation_sym HP)).
  - now apply (Permutation_in _ HP).
Qed.

Section Frames.

Context {A T F B : Type}.
Context `{TO : Transformation.Ops T}.
Context `{AO : Animation.Ops A T F}.
Context `{BO : Animation.Base B F}.

Implicit Types (s : AnimationSet.t A T B) (a : A) (l : list A).

Lemma frame_loop (ct : Z) (sc : F) l :
  forall (suf : list A) (fr : AnimationSet.Frame),
    AnimationSet.f_anims fr = l ++ suf ->
    AnimationSet.f_t (for_down (length l) (AnimationSet.frame_body ct sc) fr)
    = fold_left (fun t a => Transformation.compose t (child_transform ct sc a))
                (rev l) (AnimationSet.f_t fr)
    /\ AnimationSet.f_more (for_down (length l) (AnimationSet.frame_body ct sc) fr)
       = existsb (child_more ct sc) l || AnimationSet.f_more fr
    /\ AnimationSet.f_started (for_down (length l) (AnimationSet.frame_body ct sc) fr)
       = AnimationSet.f_started fr
         || existsb (fun a => Animation.hasStarted (child_after ct sc a)) l
    /\ AnimationSet.f_ended (for_down (length l) (AnimationSet.frame_body ct sc) fr)
       = forallb (fun a => Animation.hasEnded (child_after ct sc a)) l
         && AnimationSet.f_ended fr
    /\ AnimationSet.f_anims (for_down (length l) (AnimationSet.frame_body ct sc) fr)
       = map (child_after ct sc) l ++ suf.
Proof.
  induction l as [|x l IH] using rev_ind; intros suf fr Hfr.
  - simpl. rewrite orb_false_r. auto.
  - rewrite length_app, Nat.add_1_r. cbn [for_down].
    assert (Hx : AnimationSet.f_anims fr !! length l = Some x).
    { rewrite Hfr, <- app_assoc. now apply list_lookup_middle. }
    destruct (child_frame ct sc x) as [[r tmp] x'] eqn:Ecf.
    assert (Em : child_more ct sc x = r) by (unfold child_more; now rewrite Ecf).
    assert (Et : child_transform ct sc x = tmp) by (unfold child_transform; now rewrite Ecf).
    assert (Ea : child_after ct sc x = x') by (unfold child_after; now rewrite Ecf).
    assert (Hb : AnimationSet.frame_body ct sc (length l) fr
                 = AnimationSet.mkFrame
                     (Transformation.compose (AnimationSet.f_t fr) tmp) tmp
                     (r || AnimationSet.f_more fr)
                     (AnimationSet.f_started fr || Animation.hasStarted x')
                     (Animation.hasEnded x' && AnimationSet.f_ended fr)
                     (<[length l := x']> (AnimationSet.f_anims fr))).
    { unfold AnimationSet.frame_body. rewrite Hx.
      change (Animation.getTransformation ct
                (Transformation.clear (AnimationSet.f_temp fr)) sc x)
        with (child_frame ct sc x).
      now rewrite Ecf. }
    rewrite Hb.
    match goal with
    | |- context [for_down _ _ ?f] =>
        destruct (IH (x' :: suf) f) as (Ht & Hm & Hs & He & Ha)
    end.
    { cbn [AnimationSet.f_anims]. rewrite Hfr, <- app_assoc.
      rewrite insert_app_r_alt by lia. now rewrite Nat.sub_diag. }
    rewrite Ht, Hm, Hs, He, Ha. cbn [AnimationSet.f_t AnimationSet.f_more
      AnimationSet.f_started AnimationSet.f_ended].
    rewrite rev_unit, existsb_app, existsb_app, forallb_app, map_app.
    cbn [fold_left existsb forallb map]. rewrite Em, Et, Ea, <- app_assoc.
    repeat split.
    + now rewrite orb_false_r, orb_assoc.
    + rewrite orb_false_r, <- orb_assoc. f_equal. apply orb_comm.
    + now rewrite andb_true_r, andb_assoc.
Qed.

Lemma children_pass_unfold (ct : Z) (t0 : T) s :
  AnimationSet.f_t (AnimationSet.children_pass ct t0 s)
  = fold_left (fun t a => Transformation.compose t
                 (child_transform ct (Animation.getScaleFactor (AnimationSet.super s)) a))
              (rev (AnimationSet.mAnimations s)) (Transformation.clear t0)
  /\ AnimationSet.f_more (AnimationSet.children_pass ct t0 s)
     = existsb (child_more ct (Animation.getScaleFactor (AnimationSet.super s)))
               (AnimationSet.mAnimations s)
  /\ AnimationSet.f_started (AnimationSet.children_pass ct t0 s)
     = existsb (fun a => Animation.hasStarted
                  (child_after ct (Animation.getScaleFactor (AnimationSet.super s)) a))
               (AnimationSet.mAnimations s)
  /\ AnimationSet.f_ended (AnimationSet.children_pass ct t0 s)
     = forallb (fun a => Animation.hasEnded
                  (child_after ct (Animation.getScaleFactor (AnimationSet.super s)) a))
               (AnimationSet.mAnimations s)
  /\ AnimationSet.f_anims (AnimationSet.children_pass ct t0 s)
     = map (child_after ct (Animation.getScaleFactor (AnimationSet.super s)))
           (AnimationSet.mAnimations s).
Proof.
  unfold AnimationSet.children_pass.
  match goal with
  | |- context [for_down _ _ ?f] =>
      destruct (frame_loop ct (Animation.getScaleFactor (AnimationSet.super s))
                  (AnimationSet.mAnimations s) [] f) as (Ht & Hm & Hs & He & Ha)
  end.
  { cbn [AnimationSet.f_anims]. now rewrite app_nil_r. }
  rewrite Ht, Hm, Hs, He, Ha. cbn [AnimationSet.f_t AnimationSet.f_more
    AnimationSet.f_started AnimationSet.f_ended].
  now rewrite orb_false_r, andb_true_r, app_nil_r.
Qed.

End Frames.

Section Calls.

Context {A T F B : Type}.
Context `{TO : Transformation.Ops T}.
Context `{AO : Animation.Ops A T F}.
Context `{BO : Animation.Base B F}.

Implicit Types (s : AnimationSet.t A T B) (a : A) (l : list A).

Lemma getTransformation_more (ct : Z) (t0 : T) s :
  gt_more (AnimationSet.getTransformation ct t0 s)
  = AnimationSet.f_more (AnimationSet.children_pass ct t0 s).
Proof. reflexivity. Qed.

Lemma getTransformation_t (ct : Z) (t0 : T) s :
  gt_t (AnimationSet.getTransformation ct t0 s)
  = AnimationSet.f_t (AnimationSet.children_pass ct t0 s).
Proof. reflexivity. Qed.

(** C2: [getTransformation(currentTime, t)] visits the children from the last
    added to the first added and composes each child's transformation into
    [t]: the final [t] is the left fold of [compose] over the reversed child
    list, started from the cleared [t]. *)
Theorem getTransformation_composes_in_reverse (currentTime : Z) (t0 : T) s :
  gt_t (AnimationSet.getTransformation currentTime t0 s)
  = fold_left
      (fun t a =>
         Transformation.compose t
           (child_transform currentTime (Animation.getScaleFactor (AnimationSet.super s)) a))
      (rev (AnimationSet.mAnimations s))
      (Transformation.clear t0).
Proof.
  rewrite getTransformation_t.
  exact (proj1 (children_pass_unfold currentTime t0 s)).
Qed.

(** C4: the flag returned by [getTransformation] is true exactly when some
    child's [getTransformation] returns true at that timestamp, the [ended]
    local is true exactly when every child then reports [hasEnded()] (so it is
    true for an empty set), and neither value changes when the children are
    held in another order. *)
Theorem getTransformation_more_and_ended (currentTime : Z) (t0 : T) s :
  (gt_more (AnimationSet.getTransformation currentTime t0 s) = true
   <-> exists a, In a (AnimationSet.mAnimations s)
                 /\ child_more currentTime
                      (Animation.getScaleFactor (AnimationSet.super s)) a = true)
  /\ (agg_ended currentTime t0 s = true
      <-> forall a, In a (AnimationSet.mAnimations s) ->
                    Animation.hasEnded
                      (child_after currentTime
                         (Animation.getScaleFactor (AnimationSet.super s)) a) = true)
  /\ (forall l, Permutation (AnimationSet.mAnimations s) l ->
        gt_more (AnimationSet.getTransformation currentTime t0
                   (AnimationSet.with_mAnimations l s))
        = gt_more (AnimationSet.getTransformation currentTime t0 s)
        /\ agg_ended currentTime t0 (AnimationSet.with_mAnimations l s)
           = agg_ended currentTime t0 s).
Proof.
  destruct (children_pass_unfold currentTime t0 s) as (_ & Hm & _ & He & _).
  split; [|split].
  - rewrite getTransformation_more, Hm. apply existsb_exists.
  - unfold agg_ended. rewrite He. apply forallb_forall.
  - intros l HP.
    destruct (children_pass_unfold currentTime t0 (AnimationSet.with_mAnimations l s))
      as (_ & Hm' & _ & He' & _).
    rewrite !getTransformation_more. unfold agg_ended.
    rewrite Hm, He, Hm', He'. cbn [AnimationSet.mAnimations AnimationSet.with_mAnimations
      AnimationSet.super].
    split; symmetry.
    + now apply existsb_perm.
    + now apply forallb_perm.
Qed.

Lemma setStartTime_children (startTimeMillis : Z) s :
  AnimationSet.mAnimations (AnimationSet.setStartTime startTimeMillis s)
  = map (Animation.setStartTime startTimeMillis) (AnimationSet.mAnimations s).
Proof.
  unfold AnimationSet.setStartTime, AnimationSet.update_child.
  cbn [AnimationSet.mAnimations AnimationSet.with_mAnimations AnimationSet.with_super].
  exact (for_up_update (Animation.setStartTime startTimeMillis)
                       (AnimationSet.mAnimations s) []).
Qed.

(** C7, as amended: [setStartTime(t)] reaches every child, with no condition:
    the child array afterwards is the old one with [setStartTime(t)] applied
    to each element, so each child's start time is [t] when the child's
    setter stores it.  [reset()] resets the set's own base part only and
    leaves the child array as it was. *)
Theorem setStartTime_fans_out_reset_does_not (startTimeMillis : Z) s :
  AnimationSet.mAnimations (AnimationSet.setStartTime startTimeMillis s)
  = map (Animation.setStartTime startTimeMillis) (AnimationSet.mAnimations s)
  /\ ((forall a, Animation.getStartTime (Animation.setStartTime startTimeMillis a)
                 = startTimeMillis) ->
      forall a, In a (AnimationSet.mAnimations (AnimationSet.setStartTime startTimeMillis s)) ->
                Animation.getStartTime a = startTimeMillis)
  /\ AnimationSet.mAnimations (AnimationSet.reset s) = AnimationSet.mAnimations s.
Proof.
  split; [apply setStartTime_children|split; [|reflexivity]].
  intros Hlaw a. rewrite setStartTime_children, in_map_iff.
  intros (a0 & <- & _). apply Hlaw.
Qed.

Lemma getTransformation_listener (ct : Z) (t0 : T) s :
  AnimationSet.mListener (gt_state (AnimationSet.getTransformation ct t0 s))
  = AnimationSet.mListener s.
Proof.
  unfold AnimationSet.getTransformation, gt_state. cbn [fst snd].
  repeat match goal with |- context [if ?c then _ else _] => destruct c end; reflexivity.
Qed.

Lemma getTransformation_mStarted (ct : Z) (t0 : T) s :
  AnimationSet.mStarted (gt_state (AnimationSet.getTransformation ct t0 s))
  = AnimationSet.mStarted s || agg_started ct t0 s.
Proof.
  unfold AnimationSet.getTransformation, gt_state, agg_started. cbn [fst snd].
  set (fr := AnimationSet.children_pass ct t0 s).
  change (AnimationSet.mStarted (AnimationSet.with_mAnimations (AnimationSet.f_anims fr) s))
    with (AnimationSet.mStarted s).
  destruct (AnimationSet.f_started fr), (AnimationSet.mStarted s) eqn:E; cbn;
    repeat match goal with |- context [if ?c then _ else _] => destruct c end;
    cbn; auto.
Qed.

Lemma getTransformation_mEnded (ct : Z) (t0 : T) s :
  AnimationSet.mEnded (gt_state (AnimationSet.getTransformation ct t0 s))
  = agg_ended ct t0 s.
Proof.
  unfold AnimationSet.getTransformation, gt_state, agg_ended. cbn [fst snd].
  set (fr := AnimationSet.children_pass ct t0 s).
  match goal with
  | |- AnimationSet.mEnded (if negb (eqb _ (AnimationSet.mEnded ?x)) then _ else _) = _ =>
      destruct (eqb (AnimationSet.f_ended fr) (AnimationSet.mEnded x)) eqn:E
  end; cbn [negb]; [|reflexivity].
  symmetry. now apply eqb_prop.
Qed.

Lemma getTransformation_events (ct : Z) (t0 : T) s (lsn : Listener) :
  AnimationSet.mListener s = Some lsn ->
  gt_events (AnimationSet.getTransformation ct t0 s)
  = (if agg_started ct t0 s && negb (AnimationSet.mStarted s)
     then [onAnimationStart lsn] else [])
    ++ (if negb (eqb (agg_ended ct t0 s) (AnimationSet.mEnded s))
        then [onAnimationEnd lsn] else []).
Proof.
  intros Hl.
  unfold AnimationSet.getTransformation, gt_events, agg_started, agg_ended,
    AnimationSet.start_events, AnimationSet.end_events.
  generalize (AnimationSet.children_pass ct t0 s). intros fr.
  destruct s as [[so du st sd en li ot] fl di ha an tm le].
  cbn in Hl. subst li.
  destruct (AnimationSet.f_started fr), sd, (AnimationSet.f_ended fr), en; reflexivity.
Qed.

(** C10: on a set without children [getTransformation] returns false and
    leaves [t] cleared, that is, equal to the identity; [ended] is then true,
    so on a set whose [mEnded] is still false the call makes the end callback
    of the attached listener and sets [mEnded]. *)
Theorem getTransformation_empty_set (currentTime : Z) (t0 : T) s :
  AnimationSet.mAnimations s = [] ->
  gt_more (AnimationSet.getTransformation currentTime t0 s) = false
  /\ gt_t (AnimationSet.getTransformation currentTime t0 s) = Transformation.clear t0
  /\ gt_t (AnimationSet.getTransformation currentTime t0 s) = Transformation.identity
  /\ agg_ended currentTime t0 s = true
  /\ (AnimationSet.mEnded s = false ->
      forall lsn, AnimationSet.mListener s = Some lsn ->
        gt_events (AnimationSet.getTransformation currentTime t0 s) = [onAnimationEnd lsn]
        /\ AnimationSet.mEnded (gt_state (AnimationSet.getTransformation currentTime t0 s))
           = true).
Proof.
  intros Hnil.
  destruct (children_pass_unfold currentTime t0 s) as (Ht & Hm & Hs & He & _).
  rewrite Hnil in Ht, Hm, Hs, He. cbn in Ht, Hm, Hs, He.
  assert (Hend : agg_ended currentTime t0 s = true) by exact He.
  assert (Hst : agg_started currentTime t0 s = false) by exact Hs.
  rewrite getTransformation_more, getTransformation_t, getTransformation_mEnded.
  split; [exact Hm|]. split; [exact Ht|]. split; [exact Ht|]. split; [exact Hend|].
  intros Hne lsn Hl. split; [|exact Hend].
  rewrite (getTransformation_events _ _ _ lsn Hl), Hend, Hst, Hne. reflexivity.
Qed.

End Calls.

(** ** Listener callbacks over successive frames *)

Lemma count_events_app (p : Event -> bool) (e1 e2 : list Event) :
  count_events p (e1 ++ e2) = (count_events p e1 + count_events p e2)%nat.
Proof. unfold count_events. now rewrite List.filter_app, length_app. Qed.

Section Listeners.

Context {A T F B : Type}.
Context `{TO : Transformation.Ops T}.
Context `{AO : Animation.Ops A T F}.
Context `{BO : Animation.Base B F}.

Implicit Types (s : AnimationSet.t A T B) (calls : list (Z * T))
  (c : AnimationSet.t A T B * (Z * T)).

Lemma run_cons (x : Z * T) calls s :
  run (x :: calls) s = (s, x) :: run calls (call_post (s, x)).
Proof. reflexivity. Qed.

Lemma call_post_started s (x : Z * T) :
  AnimationSet.mStarted s = true -> AnimationSet.mStarted (call_post (s, x)) = true.
Proof.
  intros Hs. unfold call_post. cbn [fst snd].
  now rewrite getTransformation_mStarted, Hs.
Qed.

Lemma call_post_listener s (x : Z * T) :
  AnimationSet.mListener (call_post (s, x)) = AnimationSet.mListener s.
Proof. unfold call_post. apply getTransformation_listener. Qed.

Lemma run_listener calls : forall s (k : nat) c,
  run calls s !! k = Some c -> AnimationSet.mListener (fst c) = AnimationSet.mListener s.
Proof.
  induction calls as [|x calls IH]; intros s k c Hk; [discriminate|].
  rewrite run_cons in Hk. destruct k as [|k]; cbn in Hk.
  - now injection Hk as <-.
  - rewrite (IH _ _ _ Hk). apply call_post_listener.
Qed.

Lemma run_started_stays calls : forall s (k : nat) c,
  AnimationSet.mStarted s = true ->
  run calls s !! k = Some c -> AnimationSet.mStarted (fst c) = true.
Proof.
  induction calls as [|x calls IH]; intros s k c Hs Hk; [discriminate|].
  rewrite run_cons in Hk. destruct k as [|k]; cbn in Hk.
  - now injection Hk as <-.
  - exact (IH (call_post (s, x)) k c (call_post_started s x Hs) Hk).
Qed.

Lemma call_events_unfold c (lsn : Listener) :
  AnimationSet.mListener (fst c) = Some lsn ->
  call_events c
  = (if call_starts c then [onAnimationStart lsn] else [])
    ++ (if call_toggles c then [onAnimationEnd lsn] else []).
Proof. intros Hl. exact (getTransformation_events _ _ _ lsn Hl). Qed.

Lemma call_events_starts c (lsn : Listener) :
  AnimationSet.mListener (fst c) = Some lsn ->
  count_events is_start (call_events c) = if call_starts c then 1%nat else 0%nat.
Proof.
  intros Hl. rewrite (call_events_unfold c lsn Hl).
  now destruct (call_starts c), (call_toggles c).
Qed.

Lemma call_starts_post c :
  call_starts c = true -> AnimationSet.mStarted (call_post c) = true.
Proof.
  unfold call_starts, call_post, call_started. intros [Hs _]%andb_prop.
  rewrite getTransformation_mStarted, Hs. apply orb_true_r.
Qed.

Lemma starts_only_once calls : forall s (j k : nat) cj ck,
  run calls s !! j = Some cj -> run calls s !! k = Some ck ->
  (j < k)%nat -> call_starts cj = true -> call_starts ck = false.
Proof.
  induction calls as [|x calls IH]; intros s j k cj ck Hj Hk Hlt Hs; [discriminate|].
  rewrite run_cons in Hj, Hk.
  destruct k as [|k]; [lia|]. cbn in Hk.
  destruct j as [|j]; cbn in Hj.
  - injection Hj as <-.
    unfold call_starts.
    rewrite (run_started_stays _ _ _ _ (call_starts_post _ Hs) Hk).
    apply andb_false_r.
  - apply (IH _ j k cj ck Hj Hk); [lia | exact Hs].
Qed.

Lemma no_start_once_started calls : forall s (lsn : Listener),
  AnimationSet.mListener s = Some lsn ->
  AnimationSet.mStarted s = true ->
  count_events is_start (all_events (run calls s)) = 0%nat.
Proof.
  induction calls as [|x calls IH]; intros s lsn Hl Hs; [reflexivity|].
  rewrite run_cons. unfold all_events. cbn [map concat].
  rewrite count_events_app, (call_events_starts (s, x) lsn Hl).
  unfold call_starts at 1. cbn [fst]. rewrite Hs, andb_false_r.
  apply (IH _ lsn).
  - now rewrite call_post_listener.
  - now apply call_post_started.
Qed.

Lemma at_most_one_start calls : forall s (lsn : Listener),
  AnimationSet.mListener s = Some lsn ->
  (count_events is_start (all_events (run calls s)) <= 1)%nat.
Proof.
  induction calls as [|x calls IH]; intros s lsn Hl; [cbn; lia|].
  rewrite run_cons. unfold all_events. cbn [map concat].
  rewrite count_events_app, (call_events_starts (s, x) lsn Hl).
  assert (Hl' : AnimationSet.mListener (call_post (s, x)) = Some lsn).
  { now rewrite call_post_listener. }
  destruct (call_starts (s, x)) eqn:Hs.
  - fold (all_events (run calls (call_post (s, x)))).
    rewrite (no_start_once_started calls _ lsn Hl' (call_starts_post _ Hs)). lia.
  - apply (IH _ lsn Hl').
Qed.

Lemma one_start_when_some_call_starts calls : forall s (lsn : Listener) (k : nat) c,
  AnimationSet.mListener s = Some lsn ->
  run calls s !! k = Some c -> call_starts c = true ->
  count_events is_start (all_events (run calls s)) = 1%nat.
Proof.
  induction calls as [|x calls IH]; intros s lsn k c Hl Hk Hs; [discriminate|].
  pose proof (at_most_one_start (x :: calls) s lsn Hl) as Hle.
  rewrite run_cons in Hk, Hle |- *. unfold all_events in Hle |- *.
  cbn [map concat] in Hle |- *.
  rewrite count_events_app, (call_events_starts (s, x) lsn Hl) in Hle |- *.
  destruct k as [|k]; cbn in Hk.
  - injection Hk as <-. rewrite Hs in Hle |- *. lia.
  - assert (Hl' : AnimationSet.mListener (call_post (s, x)) = Some lsn).
    { now rewrite call_post_listener. }
    pose proof (IH _ lsn k c Hl' Hk Hs) as H1. unfold all_events in H1.
    destruct (call_starts (s, x)); lia.
Qed.

(** C5: over successive [getTransformation] calls on one set with a listener
    attached, a call makes the start callback exactly when its [started] is
    true while [mStarted] is still false, which happens on at most one call
    of the sequence (and on exactly one if it happens at all: the first such
    call sets [mStarted] for good); a call makes the end callback exactly when
    its [ended] differs from [mEnded], in either direction, and always leaves
    [mEnded] equal to [ended]. *)
Theorem listener_callbacks calls s (lsn : Listener) :
  AnimationSet.mListener s = Some lsn ->
  (forall (k : nat) c, run calls s !! k = Some c ->
     call_events c
     = (if call_started c && negb (AnimationSet.mStarted (fst c))
        then [onAnimationStart lsn] else [])
       ++ (if negb (eqb (call_ended c) (AnimationSet.mEnded (fst c)))
           then [onAnimationEnd lsn] else [])
     /\ AnimationSet.mStarted (call_post c)
        = AnimationSet.mStarted (fst c) || call_started c
     /\ AnimationSet.mEnded (call_post c) = call_ended c)
  /\ (count_events is_start (all_events (run calls s)) <= 1)%nat
  /\ (forall (k : nat) c, run calls s !! k = Some c -> call_starts c = true ->
        count_events is_start (all_events (run calls s)) = 1%nat
        /\ forall (j : nat) c', run calls s !! j = Some c' -> j <> k ->
                                call_starts c' = false).
Proof.
  intros Hl. split; [|split].
  - intros k c Hk.
    assert (Hlc : AnimationSet.mListener (fst c) = Some lsn)
      by (now rewrite (run_listener calls s k c Hk)).
    split; [exact (call_events_unfold c lsn Hlc)|split].
    + apply getTransformation_mStarted.
    + apply getTransformation_mEnded.
  - exact (at_most_one_start calls s lsn Hl).
  - intros k c Hk Hs. split.
    + exact (one_start_when_some_call_starts calls s lsn k c Hl Hk Hs).
    + intros j c' Hj Hne.
      destruct (call_starts c') eqn:Hs'; [|reflexivity].
      destruct (Nat.lt_total j k) as [Hlt | [Heq | Hgt]]; [| contradiction |].
      * pose proof (starts_only_once calls s j k c' c Hj Hk Hlt Hs'). congruence.
      * pose proof (starts_only_once calls s k j c c' Hk Hj Hgt Hs). congruence.
Qed.

End Listeners.

(** ** The reference instance at work *)

(** C1, as stated, fails: one child with start offset 100 and duration 50 in
    a set with start offset 0 and no duration override has its end at 150,
    yet [getDuration()] is 50. *)
Lemma getDuration_leaves_offsets_out :
  AnimationSet.durationSet Sample.one_child = false
  /\ maximum (map child_end (AnimationSet.mAnimations Sample.one_child)) = Some 150
  /\ AnimationSet.mStartOffset Sample.one_child = 0
  /\ AnimationSet.getDuration Sample.one_child = 50
  /\ AnimationSet.getDuration Sample.one_child
     <> lsub 150 (AnimationSet.mStartOffset Sample.one_child).
Proof. repeat split; try reflexivity. vm_compute. discriminate. Qed.

Lemma getDuration_of_built_witness :
  AnimationSet.getDuration (build [Sample.anim 100 50 1] (Sample.fresh None)) = 50.
Proof.
  exact (getDuration_of_built [Sample.anim 100 50 1] (Sample.fresh None) eq_refl eq_refl).
Defined.

(** C3, as stated, fails: a set given start offset 10 and then its first
    child, which ends at 100, has [mDuration] 100 and [mLastEnd] 110, while
    the largest child end less the start offset is 90. *)
Lemma first_child_with_offset_breaks_invariant :
  timing_inv (AnimationSet.setStartOffset 10 (Sample.fresh None))
  /\ Sample.offset_first
     = AnimationSet.addAnimation (Sample.anim 0 100 1)
         (AnimationSet.setStartOffset 10 (Sample.fresh None))
  /\ AnimationSet.durationSet Sample.offset_first = false
  /\ maximum (map child_end (AnimationSet.mAnimations Sample.offset_first)) = Some 100
  /\ AnimationSet.mStartOffset Sample.offset_first = 10
  /\ AnimationSet.mDuration Sample.offset_first = 100
  /\ AnimationSet.mLastEnd Sample.offset_first = 110
  /\ AnimationSet.mDuration Sample.offset_first
     <> lsub 100 (AnimationSet.mStartOffset Sample.offset_first)
  /\ ~ timing_inv Sample.offset_first.
Proof.
  split; [intros _ Hne; now contradiction Hne|].
  repeat split; try reflexivity.
  - vm_compute. discriminate.
  - intros Hinv. destruct Hinv as [Hmax _]; [reflexivity | discriminate |].
    vm_compute in Hmax. discriminate.
Qed.

Lemma addAnimation_timing_inv_witness :
  timing_inv (AnimationSet.addAnimation (Sample.anim 0 20 2) Sample.one_child).
Proof.
  apply (proj2 (addAnimation_timing_inv (Sample.anim 0 20 2) Sample.one_child)).
  - intros _ _. split; reflexivity.
  - intros Hnil. discriminate Hnil.
Defined.

(** C8, as stated, fails: after [setDuration(100)] and [setStartOffset(5)] the
    duration flag is set and [mLastEnd] is 100; adding a child moves
    [mLastEnd] to 105. *)
Lemma addAnimation_rewrites_lastEnd :
  AnimationSet.durationSet Sample.overridden = true
  /\ AnimationSet.mLastEnd Sample.overridden = 100
  /\ AnimationSet.mLastEnd (AnimationSet.addAnimation (Sample.anim 0 10 1) Sample.overridden)
     = 105
  /\ AnimationSet.mLastEnd (AnimationSet.addAnimation (Sample.anim 0 10 1) Sample.overridden)
     <> AnimationSet.mLastEnd Sample.overridden.
Proof. repeat split; try reflexivity. vm_compute. discriminate. Qed.

Lemma addAnimation_with_override_witness :
  AnimationSet.mDuration
    (AnimationSet.addAnimation (Sample.anim 0 10 1)
       (AnimationSet.setDuration 100 (Sample.fresh None))) = 100
  /\ AnimationSet.mLastEnd
       (AnimationSet.addAnimation (Sample.anim 0 10 1)
          (AnimationSet.setDuration 100 (Sample.fresh None))) = 100.
Proof.
  destruct (addAnimation_with_override (Sample.anim 0 10 1)
              (AnimationSet.setDuration 100 (Sample.fresh None)) eq_refl)
    as (Hd & _ & Hl & _).
  split; [exact Hd | exact Hl].
Defined.

(** C9, as stated, fails: two children with durations -5 and -7 and no
    duration override have -5 as their largest duration, yet [getDuration()]
    is the initial 0. *)
Lemma getDuration_floor_is_zero :
  AnimationSet.durationSet
    (build [Sample.anim 0 (-5) 1; Sample.anim 0 (-7) 2] (Sample.fresh None)) = false
  /\ maximum (map Animation.getDuration
                 (AnimationSet.mAnimations
                    (build [Sample.anim 0 (-5) 1; Sample.anim 0 (-7) 2] (Sample.fresh None))))
     = Some (-5)
  /\ AnimationSet.getDuration
       (build [Sample.anim 0 (-5) 1; Sample.anim 0 (-7) 2] (Sample.fresh None)) = 0
  /\ AnimationSet.getDuration
       (build [Sample.anim 0 (-5) 1; Sample.anim 0 (-7) 2] (Sample.fresh None)) <> -5.
Proof. repeat split; try reflexivity. vm_compute. discriminate. Qed.

Lemma getDuration_override_or_longest_child_witness :
  AnimationSet.getDuration Sample.one_child = Z.max 0 50
  /\ AnimationSet.getDuration Sample.one_child = 50.
Proof.
  assert (Hm : maximum (map Animation.getDuration
                          (AnimationSet.mAnimations Sample.one_child)) = Some 50)
    by reflexivity.
  destruct (proj2 (proj2 (proj2 (getDuration_override_or_longest_child Sample.one_child)))
              eq_refl 50 Hm) as [Hmax Hpos].
  split; [exact Hmax|]. apply Hpos. intros Hgt. discriminate Hgt.
Defined.

(** C6: the code at a set whose only child has start time 200000: the
    smallest child start time is 200000, and [getStartTime()] is the initial
    100000, as it is for a set without children. *)
Theorem getStartTime_stops_at_sentinel :
  AnimationSet.getStartTime (Sample.fresh None) = 100000
  /\ minimum (map Animation.getStartTime (AnimationSet.mAnimations Sample.late_child))
     = Some 200000
  /\ AnimationSet.getStartTime Sample.late_child = 100000.
Proof. repeat split; reflexivity. Qed.

(** C7, as stated, fails for [reset()]: both children of a set that has run
    one frame have started; after [reset()] on the set they are the same
    objects, still started, not the children a [reset()] of their own would
    leave. *)
Lemma reset_leaves_children_alone :
  map Animation.hasStarted (AnimationSet.mAnimations Sample.pair_running) = [true; true]
  /\ AnimationSet.mAnimations (AnimationSet.reset Sample.pair_running)
     = AnimationSet.mAnimations Sample.pair_running
  /\ map Animation.hasStarted
         (map Animation.reset (AnimationSet.mAnimations Sample.pair_running))
     = [false; false]
  /\ AnimationSet.mAnimations (AnimationSet.reset Sample.pair_running)
     <> map Animation.reset (AnimationSet.mAnimations Sample.pair_running).
Proof. repeat split; try reflexivity. vm_compute. discriminate. Qed.

Lemma setStartTime_fans_out_witness :
  In (Animation.setStartTime 42 (Sample.anim 0 10 1))
     (AnimationSet.mAnimations (AnimationSet.setStartTime 42 Sample.pair))
  /\ Animation.getStartTime (Animation.setStartTime 42 (Sample.anim 0 10 1)) = 42.
Proof.
  split; [left; reflexivity|].
  apply (proj1 (proj2 (setStartTime_fans_out_reset_does_not 42 Sample.pair))).
  - intros a. reflexivity.
  - left. reflexivity.
Defined.

(** Swapping two children whose transformations do not commute changes the
    composed result. *)
Example composition_is_order_sensitive :
  gt_t (AnimationSet.getTransformation 5 [] Sample.pair) = [2%nat; 1%nat]
  /\ gt_t (AnimationSet.getTransformation 5 []
             (AnimationSet.with_mAnimations
                [Sample.anim 0 20 2; Sample.anim 0 10 1] Sample.pair))
     = [1%nat; 2%nat].
Proof. split; reflexivity. Qed.

Lemma getTransformation_more_and_ended_witness :
  gt_more (AnimationSet.getTransformation 5 []
             (AnimationSet.with_mAnimations
                [Sample.anim 0 20 2; Sample.anim 0 10 1] Sample.pair))
  = gt_more (AnimationSet.getTransformation 5 [] Sample.pair).
Proof.
  apply (proj2 (proj2 (getTransformation_more_and_ended 5 [] Sample.pair))).
  apply perm_swap.
Defined.

Lemma listener_callbacks_witness :
  (count_events is_start
     (all_events (run Sample.frames Sample.pair)) <= 1)%nat.
Proof.
  exact (proj1 (proj2 (listener_callbacks Sample.frames Sample.pair 7%nat eq_refl))).
Defined.

Lemma getTransformation_empty_set_witness :
  gt_more (AnimationSet.getTransformation 5 [] (Sample.fresh (Some 7%nat))) = false
  /\ gt_events (AnimationSet.getTransformation 5 [] (Sample.fresh (Some 7%nat)))
     = [onAnimationEnd 7%nat].
Proof.
  destruct (getTransformation_empty_set 5 [] (Sample.fresh (Some 7%nat)) eq_refl)
    as (Hm & _ & _ & _ & He).
  split; [exact Hm | exact (proj1 (He eq_refl 7%nat eq_refl))].
Defined.

(** * Further properties of the code *)

(** ** Aggregates over the children *)

Lemma max0_perm (l l' : list Z) : Permutation l l' -> max0 l = max0 l'.
Proof.
  unfold max0. induction 1 as [|x l l' _ IH|x y l|l l' l'' _ IH1 _ IH2];
    cbn [fold_right]; [reflexivity | now rewrite IH | lia | congruence].
Qed.

Lemma max0_bound (l : list Z) (x : Z) : In x l -> x <= max0 l.
Proof.
  unfold max0. induction l as [|y l IH]; cbn [fold_right In]; [tauto|].
  intros [-> | Hin]; [lia | specialize (IH Hin); lia].
Qed.

Lemma fold_left_min_perm (l l' : list Z) :
  Permutation l l' -> forall x, fold_left Z.min l x = fold_left Z.min l' x.
Proof.
  induction 1 as [|y l l' _ IH|y z l|l l' l'' _ IH1 _ IH2]; intros x; cbn [fold_left].
  - reflexivity.
  - apply IH.
  - f_equal. lia.
  - now rewrite IH1.
Qed.

Lemma fold_left_min_const {X : Type} (l : list X) (t x : Z) :
  l <> [] -> fold_left Z.min (map (fun _ => t) l) x = Z.min x t.
Proof.
  destruct l as [|a l]; [congruence|]. intros _. cbn [map fold_left].
  generalize (Z.min x t) (Z.le_min_r x t). induction l as [|b l IH]; intros y Hy;
    cbn [map fold_left]; [reflexivity|].
  rewrite Z.min_l by exact Hy. now apply IH.
Qed.

Lemma fold_left_hint_map {X : Type} (h : X -> Z) (l : list X) (x : Z) :
  fold_left (fun d a => if h a >? d then h a else d) l x = fold_left Z.max (map h l) x.
Proof.
  revert x. induction l as [|a l IH]; intros x; cbn [map fold_left]; [reflexivity|].
  rewrite IH. f_equal. destruct (Z.gtb_spec (h a) x); lia.
Qed.

Section MoreTiming.

Context {A T F B : Type}.
Context `{TO : Transformation.Ops T}.
Context `{AO : Animation.Ops A T F}.
Context `{BO : Animation.Base B F}.

Implicit Types (s : AnimationSet.t A T B) (a : A) (l : list A).

Lemma computeDurationHint_unfold s :
  AnimationSet.computeDurationHint s
  = max0 (map Animation.computeDurationHint (AnimationSet.mAnimations s)).
Proof.
  unfold AnimationSet.computeDurationHint.
  pose proof (for_down_read
                (fun d a => if Animation.computeDurationHint a >? d
                            then Animation.computeDurationHint a else d)
                (AnimationSet.mAnimations s) [] 0) as H.
  rewrite app_nil_r in H. rewrite H, fold_left_hint_map, fold_left_max_max0.
  apply max0_perm, Permutation_map, Permutation_sym, Permutation_rev.
Qed.

(** X1: with children present, [getStartTime()] is the smaller of 100000 and
    the smallest child start time: the smallest child start time itself when
    that is at most 100000, and 100000 otherwise. *)
Theorem getStartTime_min_with_sentinel s (m : Z) :
  minimum (map Animation.getStartTime (AnimationSet.mAnimations s)) = Some m ->
  AnimationSet.getStartTime s = Z.min 100000 m
  /\ (m <= 100000 -> AnimationSet.getStartTime s = m)
  /\ (100000 < m -> AnimationSet.getStartTime s = 100000).
Proof.
  intros Hm. rewrite getStartTime_unfold.
  destruct (map Animation.getStartTime (AnimationSet.mAnimations s)) as [|x r];
    [discriminate|].
  cbn [minimum] in Hm. injection Hm as <-. cbn [fold_left].
  rewrite fold_left_min_comm. repeat split; lia.
Qed.

(** X2: reading the start time back after [setStartTime(t)], for children
    whose setter stores [t]: a set with children answers the smaller of
    100000 and [t], a set without children answers 100000; the set's own
    [mStartTime] is not consulted. *)
Theorem getStartTime_after_setStartTime (startTimeMillis : Z) s :
  (forall a, Animation.getStartTime (Animation.setStartTime startTimeMillis a)
             = startTimeMillis) ->
  (AnimationSet.mAnimations s <> [] ->
   AnimationSet.getStartTime (AnimationSet.setStartTime startTimeMillis s)
   = Z.min 100000 startTimeMillis)
  /\ (AnimationSet.mAnimations s = [] ->
      AnimationSet.getStartTime (AnimationSet.setStartTime startTimeMillis s) = 100000).
Proof.
  intros Hlaw. rewrite getStartTime_unfold, setStartTime_children, map_map.
  rewrite (map_ext _ (fun _ => startTimeMillis) Hlaw).
  split.
  - intros Hne. now apply fold_left_min_const.
  - intros ->. reflexivity.
Qed.

(** X3: [computeDurationHint()] is the largest child duration hint and at
    least 0: it is 0 for a set without children, never negative, and no child
    hint exceeds it. *)
Theorem computeDurationHint_longest_hint s :
  AnimationSet.computeDurationHint s
  = max0 (map Animation.computeDurationHint (AnimationSet.mAnimations s))
  /\ 0 <= AnimationSet.computeDurationHint s
  /\ (forall a, In a (AnimationSet.mAnimations s) ->
                Animation.computeDurationHint a <= AnimationSet.computeDurationHint s)
  /\ (AnimationSet.mAnimations s = [] -> AnimationSet.computeDurationHint s = 0).
Proof.
  rewrite computeDurationHint_unfold. repeat split.
  - apply max0_nonneg.
  - intros a Hin. apply max0_bound. now apply in_map.
  - intros ->. reflexivity.
Qed.

(** X4: [getDuration()], [getStartTime()] and [computeDurationHint()] do not
    depend on the order in which the children are held. *)
Theorem aggregates_ignore_child_order s l :
  Permutation (AnimationSet.mAnimations s) l ->
  AnimationSet.getDuration (AnimationSet.with_mAnimations l s) = AnimationSet.getDuration s
  /\ AnimationSet.getStartTime (AnimationSet.with_mAnimations l s)
     = AnimationSet.getStartTime s
  /\ AnimationSet.computeDurationHint (AnimationSet.with_mAnimations l s)
     = AnimationSet.computeDurationHint s.
Proof.
  intros HP. rewrite !getDuration_unfold, !getStartTime_unfold, !computeDurationHint_unfold.
  change (AnimationSet.durationSet (AnimationSet.with_mAnimations l s))
    with (AnimationSet.durationSet s).
  change (AnimationSet.mDuration (AnimationSet.with_mAnimations l s))
    with (AnimationSet.mDuration s).
  cbn [AnimationSet.mAnimations AnimationSet.with_mAnimations].
  repeat split.
  - destruct (AnimationSet.durationSet s); [reflexivity|].
    symmetry. apply max0_perm. now apply Permutation_map.
  - symmetry. apply fold_left_min_perm. now apply Permutation_map.
  - symmetry. apply max0_perm. now apply Permutation_map.
Qed.

Lemma addAnimation_override_fields a s :
  AnimationSet.durationSet s = true ->
  AnimationSet.mDuration (AnimationSet.addAnimation a s) = AnimationSet.mDuration s
  /\ AnimationSet.mLastEnd (AnimationSet.addAnimation a s)
     = ladd (AnimationSet.mStartOffset s) (AnimationSet.mDuration s).
Proof.
  intros Hflag. unfold AnimationSet.addAnimation.
  change (AnimationSet.durationSet
            (AnimationSet.with_mAnimations (AnimationSet.mAnimations s ++ [a]) s))
    with (AnimationSet.durationSet s).
  rewrite Hflag. split; reflexivity.
Qed.

Lemma build_snoc l a s :
  build (l ++ [a]) s = AnimationSet.addAnimation a (build l s).
Proof. unfold build. now rewrite fold_left_app. Qed.

Lemma build_startOffset l s :
  AnimationSet.mStartOffset (build l s) = AnimationSet.mStartOffset s.
Proof.
  induction l as [|a l IH] using rev_ind; [reflexivity|].
  now rewrite build_snoc, addAnimation_startOffset.
Qed.

(** X5: a duration set with [setDuration(d)] survives every later
    [addAnimation]: the flag stays set, [getDuration()] and [mDuration] stay
    [d] whatever the children are, and [mLastEnd] stays [mStartOffset + d]. *)
Theorem override_survives_adds (d : Z) l s :
  AnimationSet.durationSet (build l (AnimationSet.setDuration d s)) = true
  /\ AnimationSet.getDuration (build l (AnimationSet.setDuration d s)) = d
  /\ AnimationSet.mDuration (build l (AnimationSet.setDuration d s)) = d
  /\ AnimationSet.mLastEnd (build l (AnimationSet.setDuration d s))
     = ladd (AnimationSet.mStartOffset s) d.
Proof.
  assert (Hflag : AnimationSet.durationSet (build l (AnimationSet.setDuration d s)) = true)
    by (rewrite build_durationSet; apply setDuration_durationSet).
  assert (Hd : AnimationSet.mDuration (build l (AnimationSet.setDuration d s)) = d
               /\ AnimationSet.mLastEnd (build l (AnimationSet.setDuration d s))
                  = ladd (AnimationSet.mStartOffset s) d).
  { clear Hflag. induction l as [|a l IH] using rev_ind; [split; reflexivity|].
    rewrite build_snoc.
    destruct (addAnimation_override_fields a (build l (AnimationSet.setDuration d s)))
      as [H1 H2].
    { rewrite build_durationSet. apply setDuration_durationSet. }
    rewrite H1, H2, build_startOffset. destruct IH as [-> _]. split; reflexivity. }
  repeat split; try tauto.
  rewrite getDuration_unfold, Hflag. tauto.
Qed.

Lemma addAnimation_first_lastEnd a s :
  AnimationSet.durationSet s = false ->
  AnimationSet.mAnimations s = [] ->
  AnimationSet.mLastEnd (AnimationSet.addAnimation a s)
  = ladd (AnimationSet.mStartOffset s) (child_end a).
Proof.
  intros Hflag Hnil. unfold AnimationSet.addAnimation.
  change (AnimationSet.durationSet
            (AnimationSet.with_mAnimations (AnimationSet.mAnimations s ++ [a]) s))
    with (AnimationSet.durationSet s).
  rewrite Hflag. cbn [AnimationSet.mAnimations AnimationSet.with_mAnimations].
  rewrite Hnil. reflexivity.
Qed.

Lemma addAnimation_later_lastEnd a s :
  AnimationSet.durationSet s = false ->
  AnimationSet.mAnimations s <> [] ->
  AnimationSet.mLastEnd (AnimationSet.addAnimation a s)
  = Z.max (AnimationSet.mLastEnd s) (child_end a).
Proof.
  intros Hflag Hne. unfold AnimationSet.addAnimation.
  change (AnimationSet.durationSet
            (AnimationSet.with_mAnimations (AnimationSet.mAnimations s ++ [a]) s))
    with (AnimationSet.durationSet s).
  rewrite Hflag. cbn [AnimationSet.mAnimations AnimationSet.with_mAnimations].
  replace (length (AnimationSet.mAnimations s ++ [a]) =? 1)%nat with false.
  - cbn. apply smax_max.
  - symmetry. apply Nat.eqb_neq. rewrite length_app. cbn.
    destruct (AnimationSet.mAnimations s); [congruence | cbn; lia].
Qed.

Lemma build_lastEnd a l s :
  AnimationSet.durationSet s = false ->
  AnimationSet.mAnimations s = [] ->
  AnimationSet.mLastEnd (build (a :: l) s)
  = fold_left Z.max (map child_end l) (ladd (AnimationSet.mStartOffset s) (child_end a)).
Proof.
  intros Hflag Hnil. induction l as [|x l IH] using rev_ind.
  - now apply addAnimation_first_lastEnd.
  - rewrite app_comm_cons, build_snoc, addAnimation_later_lastEnd.
    + now rewrite IH, map_app, fold_left_app.
    + now rewrite build_durationSet.
    + rewrite build_children, Hnil. discriminate.
Qed.

Lemma build_duration a l s :
  AnimationSet.durationSet s = false ->
  AnimationSet.mDuration (build (a :: l) s)
  = lsub (AnimationSet.mLastEnd (build (a :: l) s)) (AnimationSet.mStartOffset s).
Proof.
  intros Hflag. rewrite <- (build_startOffset (a :: l) s).
  destruct (exists_last (l := a :: l)) as (l0 & x & ->); [discriminate|].
  rewrite build_snoc. apply addAnimation_duration_lastEnd.
  now rewrite build_durationSet.
Qed.

(** X6: the timing fields of a set grown from an empty one with the duration
    flag clear: [mLastEnd] is the largest of [mStartOffset + end] of the first
    child and the plain ends of the later children, and [mDuration] is
    [mLastEnd - mStartOffset]. *)
Theorem built_timing_closed_form a l s :
  AnimationSet.durationSet s = false ->
  AnimationSet.mAnimations s = [] ->
  AnimationSet.mLastEnd (build (a :: l) s)
  = fold_left Z.max (map child_end l) (ladd (AnimationSet.mStartOffset s) (child_end a))
  /\ AnimationSet.mDuration (build (a :: l) s)
     = lsub (fold_left Z.max (map child_end l)
                       (ladd (AnimationSet.mStartOffset s) (child_end a)))
            (AnimationSet.mStartOffset s).
Proof.
  intros Hflag Hnil. split.
  - now apply build_lastEnd.
  - now rewrite build_duration, build_lastEnd.
Qed.

Lemma child_end_wrapped a : wrap (child_end a) = child_end a.
Proof. unfold child_end, ladd. apply wrap_wrap. Qed.

(** X7: for a set with start offset 0 and the duration flag clear, grown from
    an empty one, both [mDuration] and [mLastEnd] are the largest child end,
    that is the largest [startOffset + duration] over the children. *)
Theorem built_duration_zero_offset l s (m : Z) :
  AnimationSet.durationSet s = false ->
  AnimationSet.mAnimations s = [] ->
  AnimationSet.mStartOffset s = 0 ->
  maximum (map child_end l) = Some m ->
  AnimationSet.mLastEnd (build l s) = m /\ AnimationSet.mDuration (build l s) = m.
Proof.
  intros Hflag Hnil Hoff Hm.
  destruct l as [|a l]; [discriminate|].
  assert (Hl : AnimationSet.mLastEnd (build (a :: l) s) = m).
  { rewrite build_lastEnd, Hoff, ladd_0_l, child_end_wrapped by assumption.
    cbn [map maximum] in Hm. now injection Hm. }
  split; [exact Hl|].
  rewrite build_duration, Hl, Hoff, lsub_0_r by assumption.
  destruct (maximum_spec _ _ Hm) as [Hin _].
  apply in_map_iff in Hin. destruct Hin as (x & <- & _). apply child_end_wrapped.
Qed.

(** X8: with the duration flag clear, adding to a set that has children never
    lowers [mLastEnd]: it becomes the larger of its old value and the new
    child's end. *)
Theorem lastEnd_never_decreases a s :
  AnimationSet.durationSet s = false ->
  AnimationSet.mAnimations s <> [] ->
  AnimationSet.mLastEnd (AnimationSet.addAnimation a s)
  = Z.max (AnimationSet.mLastEnd s) (child_end a)
  /\ AnimationSet.mLastEnd s <= AnimationSet.mLastEnd (AnimationSet.addAnimation a s)
  /\ child_end a <= AnimationSet.mLastEnd (AnimationSet.addAnimation a s).
Proof.
  intros Hflag Hne. rewrite (addAnimation_later_lastEnd a s Hflag Hne).
  repeat split; lia.
Qed.

End MoreTiming.

(** ** Frames *)

Lemma count_end_app (e1 e2 : list Event) :
  count_events is_end (e1 ++ e2) = (count_events is_end e1 + count_events is_end e2)%nat.
Proof. apply count_events_app. Qed.

Section MoreFrames.

Context {A T F B : Type}.
Context `{TO : Transformation.Ops T}.
Context `{AO : Animation.Ops A T F}.
Context `{BO : Animation.Base B F}.

Implicit Types (s : AnimationSet.t A T B) (a : A) (l : list A) (calls : list (Z * T)).

Lemma getTransformation_children (ct : Z) (t0 : T) s :
  AnimationSet.mAnimations (gt_state (AnimationSet.getTransformation ct t0 s))
  = map (child_after ct (Animation.getScaleFactor (AnimationSet.super s)))
        (AnimationSet.mAnimations s).
Proof.
  destruct (children_pass_unfold ct t0 s) as (_ & _ & _ & _ & Ha).
  rewrite <- Ha.
  unfold AnimationSet.getTransformation, gt_state. cbn [fst snd].
  repeat match goal with |- context [if ?c then _ else _] => destruct c end; reflexivity.
Qed.

(** X9: one [getTransformation] call advances every child exactly once, in
    place: the child array afterwards is the old one with each child replaced
    by what its own [getTransformation] left, in the same order.  Of the set's
    own members only [mStarted] and [mEnded] can change: the flags, the timing
    fields, the alpha cache and [mTempTransformation] are as before. *)
Theorem getTransformation_frame_effect (currentTime : Z) (t0 : T) s :
  AnimationSet.mAnimations (gt_state (AnimationSet.getTransformation currentTime t0 s))
  = map (child_after currentTime (Animation.getScaleFactor (AnimationSet.super s)))
        (AnimationSet.mAnimations s)
  /\ length (AnimationSet.mAnimations
               (gt_state (AnimationSet.getTransformation currentTime t0 s)))
     = length (AnimationSet.mAnimations s)
  /\ gt_state (AnimationSet.getTransformation currentTime t0 s)
     = AnimationSet.with_mAnimations
         (AnimationSet.mAnimations (gt_state (AnimationSet.getTransformation currentTime t0 s)))
         (AnimationSet.with_super
            (Animation.with_mEnded
               (AnimationSet.mEnded
                  (gt_state (AnimationSet.getTransformation currentTime t0 s)))
               (Animation.with_mStarted
                  (AnimationSet.mStarted
                     (gt_state (AnimationSet.getTransformation currentTime t0 s)))
                  (AnimationSet.super s)))
            s).
Proof.
  split; [apply getTransformation_children|split].
  - now rewrite getTransformation_children, length_map.
  - unfold AnimationSet.getTransformation, gt_state. cbn [fst snd].
    generalize (AnimationSet.children_pass currentTime t0 s). intros fr.
    destruct s as [[so du st sd en li ot] fl di ha an tm le].
    destruct (AnimationSet.f_started fr), sd, (AnimationSet.f_ended fr), en; reflexivity.
Qed.

(** X10: without a listener ([mListener] null) a [getTransformation] call
    makes no callback, and still updates the cached flags: [mStarted] becomes
    true once [started] is, and [mEnded] takes the value of [ended]. *)
Theorem getTransformation_without_listener (currentTime : Z) (t0 : T) s :
  AnimationSet.mListener s = None ->
  gt_events (AnimationSet.getTransformation currentTime t0 s) = []
  /\ AnimationSet.mStarted (gt_state (AnimationSet.getTransformation currentTime t0 s))
     = AnimationSet.mStarted s || agg_started currentTime t0 s
  /\ AnimationSet.mEnded (gt_state (AnimationSet.getTransformation currentTime t0 s))
     = agg_ended currentTime t0 s.
Proof.
  intros Hl. split; [|split].
  - unfold AnimationSet.getTransformation, gt_events,
      AnimationSet.start_events, AnimationSet.end_events.
    generalize (AnimationSet.children_pass currentTime t0 s). intros fr.
    destruct s as [[so du st sd en li ot] fl di ha an tm le].
    cbn in Hl. subst li.
    destruct (AnimationSet.f_started fr), sd, (AnimationSet.f_ended fr), en; reflexivity.
  - apply getTransformation_mStarted.
  - apply getTransformation_mEnded.
Qed.

(** X11: the [started] local of [getTransformation] is true exactly when some
    child reports [hasStarted()] after its own call in this frame; it is
    false for a set without children and does not depend on the order of the
    children. *)
Theorem started_is_some_child_started (currentTime : Z) (t0 : T) s :
  (agg_started currentTime t0 s = true
   <-> exists a, In a (AnimationSet.mAnimations s)
                 /\ Animation.hasStarted
                      (child_after currentTime
                         (Animation.getScaleFactor (AnimationSet.super s)) a) = true)
  /\ (AnimationSet.mAnimations s = [] -> agg_started currentTime t0 s = false)
  /\ (forall l, Permutation (AnimationSet.mAnimations s) l ->
        agg_started currentTime t0 (AnimationSet.with_mAnimations l s)
        = agg_started currentTime t0 s).
Proof.
  destruct (children_pass_unfold currentTime t0 s) as (_ & _ & Hs & _ & _).
  unfold agg_started. rewrite Hs. split; [|split].
  - apply existsb_exists.
  - intros ->. reflexivity.
  - intros l HP.
    destruct (children_pass_unfold currentTime t0 (AnimationSet.with_mAnimations l s))
      as (_ & _ & Hs' & _ & _).
    rewrite Hs'. cbn [AnimationSet.mAnimations AnimationSet.with_mAnimations
      AnimationSet.super].
    symmetry. now apply existsb_perm.
Qed.

Lemma run_final_cons (x : Z * T) calls s :
  run_final (x :: calls) s = run_final calls (call_post (s, x)).
Proof. reflexivity. Qed.

Lemma call_events_ends (c : AnimationSet.t A T B * (Z * T)) (lsn : Listener) :
  AnimationSet.mListener (fst c) = Some lsn ->
  count_events is_end (call_events c) = if call_toggles c then 1%nat else 0%nat.
Proof.
  intros Hl. rewrite (call_events_unfold c lsn Hl).
  now destruct (call_starts c), (call_toggles c).
Qed.

Lemma call_post_ended s (x : Z * T) :
  AnimationSet.mEnded (call_post (s, x))
  = xorb (AnimationSet.mEnded s) (call_toggles (s, x)).
Proof.
  unfold call_post, call_toggles, call_ended. cbn [fst snd].
  rewrite getTransformation_mEnded.
  now destruct (agg_ended (fst x) (snd x) s), (AnimationSet.mEnded s).
Qed.

(** X12: over any sequence of [getTransformation] calls on a set with a
    listener, the end callbacks count the changes of [mEnded]: [mEnded] at the
    end differs from [mEnded] at the beginning exactly when the number of end
    callbacks made is odd. *)
Theorem end_callbacks_count_toggles calls s (lsn : Listener) :
  AnimationSet.mListener s = Some lsn ->
  AnimationSet.mEnded (run_final calls s)
  = xorb (AnimationSet.mEnded s)
         (Nat.odd (count_events is_end (all_events (run calls s)))).
Proof.
  revert s. induction calls as [|x calls IH]; intros s Hl.
  - cbn. now rewrite xorb_false_r.
  - rewrite run_final_cons, run_cons. unfold all_events. cbn [map concat].
    rewrite count_end_app, (call_events_ends (s, x) lsn Hl), Nat.odd_add.
    fold (all_events (run calls (call_post (s, x)))).
    rewrite IH by (now rewrite call_post_listener).
    rewrite call_post_ended, xorb_assoc.
    now destruct (call_toggles (s, x)).
Qed.

(** X13: [getTransformation] never clears [mStarted]: after any sequence of
    calls [mStarted] is true exactly when it was true before or some call of
    the sequence had [started] true. *)
Theorem mStarted_accumulates calls s :
  AnimationSet.mStarted (run_final calls s)
  = AnimationSet.mStarted s || existsb call_started (run calls s).
Proof.
  revert s. induction calls as [|x calls IH]; intros s.
  - cbn. now rewrite orb_false_r.
  - rewrite run_final_cons, run_cons, IH. cbn [existsb].
    unfold call_post at 1. cbn [fst snd]. rewrite getTransformation_mStarted.
    unfold call_started at 2. cbn [fst snd]. now rewrite orb_assoc.
Qed.

End MoreFrames.

(** ** Flags, the alpha cache and the remaining methods *)

Lemma land_lor_disjoint (f m o : Z) : Z.land m o = 0 -> Z.land (Z.lor f m) o = Z.land f o.
Proof. intros H. now rewrite Z.land_lor_distr_l, H, Z.lor_0_r. Qed.

Lemma land_clear_disjoint (f m o : Z) :
  Z.land m o = 0 -> Z.land (Z.land f (Z.lnot m)) o = Z.land f o.
Proof.
  intros H. apply Z.bits_inj'. intros n Hn.
  assert (Hb : Z.testbit m n && Z.testbit o n = false).
  { rewrite <- Z.land_spec, H. apply Z.bits_0. }
  rewrite !Z.land_spec, Z.lnot_spec by exact Hn.
  destruct (Z.testbit f n), (Z.testbit m n), (Z.testbit o n); auto.
Qed.

Lemma land_clear_same (f m : Z) : Z.land (Z.land f (Z.lnot m)) m = 0.
Proof.
  apply Z.bits_inj'. intros n Hn.
  rewrite !Z.land_spec, Z.lnot_spec, Z.bits_0 by exact Hn.
  destruct (Z.testbit f n), (Z.testbit m n); reflexivity.
Qed.

Section MoreMethods.

Context {A T F B : Type}.
Context `{TO : Transformation.Ops T}.
Context `{AO : Animation.Ops A T F}.
Context `{BO : Animation.Base B F}.
Context `{AM : AnimationMore.Ops A F}.
Context `{BM : AnimationMore.Base B}.

Implicit Types (s : AnimationSet.t A T B) (a : A) (l : list A).

(** X14: [setFlag(mask, true)] sets all bits of [mask], [setFlag(mask, false)]
    clears them, and in both cases the bits of every mask disjoint from
    [mask] keep their values. *)
Theorem setFlag_sets_or_clears_only_its_mask (mask : Z) (value : bool) s :
  Z.land (AnimationSet.mFlags (AnimationSet.setFlag mask true s)) mask = mask
  /\ Z.land (AnimationSet.mFlags (AnimationSet.setFlag mask false s)) mask = 0
  /\ (forall other, Z.land mask other = 0 ->
        Z.land (AnimationSet.mFlags (AnimationSet.setFlag mask value s)) other
        = Z.land (AnimationSet.mFlags s) other).
Proof.
  split; [|split].
  - apply land_lor_same.
  - apply land_clear_same.
  - intros other Hd. destruct value; cbn.
    + now apply land_lor_disjoint.
    + now apply land_clear_disjoint.
Qed.

(** X15: a set as the constructor leaves it has no children, start time 0 and
    no duration override; its share-interpolator flag is the constructor's
    argument; it reports duration 0, duration hint 0 and start time 100000. *)
Theorem constructed_set (base0 : Animation.Fields B) (dirty0 hasAlpha0 : bool)
  (lastEnd0 : Z) (temp0 : T) (shareInterpolator : bool) :
  AnimationSet.mAnimations
    (AnimationSet.new base0 dirty0 hasAlpha0 lastEnd0 temp0 shareInterpolator
     : AnimationSet.t A T B) = []
  /\ AnimationSet.mStartTime
       (AnimationSet.new base0 dirty0 hasAlpha0 lastEnd0 temp0 shareInterpolator
        : AnimationSet.t A T B) = 0
  /\ AnimationSet.durationSet
       (AnimationSet.new base0 dirty0 hasAlpha0 lastEnd0 temp0 shareInterpolator
        : AnimationSet.t A T B) = false
  /\ (Z.land (AnimationSet.mFlags
                (AnimationSet.new base0 dirty0 hasAlpha0 lastEnd0 temp0 shareInterpolator
                 : AnimationSet.t A T B))
             AnimationSet.PROPERTY_SHARE_INTERPOLATOR_MASK
      =? AnimationSet.PROPERTY_SHARE_INTERPOLATOR_MASK) = shareInterpolator
  /\ AnimationSet.getDuration
       (AnimationSet.new base0 dirty0 hasAlpha0 lastEnd0 temp0 shareInterpolator
        : AnimationSet.t A T B) = 0
  /\ AnimationSet.computeDurationHint
       (AnimationSet.new base0 dirty0 hasAlpha0 lastEnd0 temp0 shareInterpolator
        : AnimationSet.t A T B) = 0
  /\ AnimationSet.getStartTime
       (AnimationSet.new base0 dirty0 hasAlpha0 lastEnd0 temp0 shareInterpolator
        : AnimationSet.t A T B) = 100000.
Proof. destruct shareInterpolator; repeat split; reflexivity. Qed.

Lemma durationSet_lor (m : Z) s :
  Z.land m AnimationSet.PROPERTY_DURATION_MASK = 0 ->
  (Z.land (Z.lor (AnimationSet.mFlags s) m) AnimationSet.PROPERTY_DURATION_MASK
   =? AnimationSet.PROPERTY_DURATION_MASK)
  = AnimationSet.durationSet s.
Proof. intros H. unfold AnimationSet.durationSet. now rewrite land_lor_disjoint. Qed.

(** X16: [setFillAfter], [setFillBefore], [setRepeatMode] and
    [setStartOffset] each record their own property bit and leave the duration
    override, the children and [mLastEnd] as they were; only [setDuration]
    turns the duration override on. *)
Theorem property_setters_keep_duration_override (fill : bool) (mode offset : Z) s :
  (AnimationSet.durationSet (AnimationSet.setFillAfter fill s) = AnimationSet.durationSet s
   /\ AnimationSet.durationSet (AnimationSet.setFillBefore fill s)
      = AnimationSet.durationSet s
   /\ AnimationSet.durationSet (AnimationSet.setRepeatMode mode s)
      = AnimationSet.durationSet s
   /\ AnimationSet.durationSet (AnimationSet.setStartOffset offset s)
      = AnimationSet.durationSet s)
  /\ (Z.land (AnimationSet.mFlags (AnimationSet.setFillAfter fill s))
             AnimationSet.PROPERTY_FILL_AFTER_MASK = AnimationSet.PROPERTY_FILL_AFTER_MASK
      /\ Z.land (AnimationSet.mFlags (AnimationSet.setFillBefore fill s))
                AnimationSet.PROPERTY_FILL_BEFORE_MASK
         = AnimationSet.PROPERTY_FILL_BEFORE_MASK
      /\ Z.land (AnimationSet.mFlags (AnimationSet.setRepeatMode mode s))
                AnimationSet.PROPERTY_REPEAT_MODE_MASK
         = AnimationSet.PROPERTY_REPEAT_MODE_MASK
      /\ Z.land (AnimationSet.mFlags (AnimationSet.setStartOffset offset s))
                AnimationSet.PROPERTY_START_OFFSET_MASK
         = AnimationSet.PROPERTY_START_OFFSET_MASK)
  /\ (AnimationSet.mAnimations (AnimationSet.setFillAfter fill s) = AnimationSet.mAnimations s
      /\ AnimationSet.mAnimations (AnimationSet.setFillBefore fill s)
         = AnimationSet.mAnimations s
      /\ AnimationSet.mAnimations (AnimationSet.setRepeatMode mode s)
         = AnimationSet.mAnimations s
      /\ AnimationSet.mAnimations (AnimationSet.setStartOffset offset s)
         = AnimationSet.mAnimations s)
  /\ (AnimationSet.mLastEnd (AnimationSet.setFillAfter fill s) = AnimationSet.mLastEnd s
      /\ AnimationSet.mLastEnd (AnimationSet.setFillBefore fill s) = AnimationSet.mLastEnd s
      /\ AnimationSet.mLastEnd (AnimationSet.setRepeatMode mode s) = AnimationSet.mLastEnd s
      /\ AnimationSet.mLastEnd (AnimationSet.setStartOffset offset s)
         = AnimationSet.mLastEnd s).
Proof.
  split; [|split; [|split]].
  - repeat split; apply (durationSet_lor _ s); reflexivity.
  - repeat split; apply land_lor_same.
  - repeat split; reflexivity.
  - repeat split; reflexivity.
Qed.

Lemma alpha_scan l : forall (pre : list A) s,
  AnimationSet.mAnimations s = pre ++ l ->
  AnimationSet.mHasAlpha s = false ->
  for_up_until (length l) (length pre)
    (fun i s =>
       match AnimationSet.mAnimations s !! i with
       | Some a =>
           if AnimationMore.hasAlpha a then (AnimationSet.with_mHasAlpha true s, true)
           else (s, false)
       | None => (s, false)
       end) s
  = AnimationSet.with_mHasAlpha (existsb AnimationMore.hasAlpha l) s.
Proof.
  induction l as [|x l IH]; intros pre s Hs Hf.
  - cbn. destruct s; cbn in *. now subst.
  - cbn [length for_up_until existsb].
    rewrite Hs, list_lookup_middle by reflexivity.
    destruct (AnimationMore.hasAlpha x); [reflexivity|]. cbn [orb].
    specialize (IH (pre ++ [x]) s).
    rewrite length_app, Nat.add_1_r, <- app_assoc in IH. now apply IH.
Qed.

Lemma hasAlpha_dirty s :
  AnimationSet.mDirty s = true ->
  AnimationSet.hasAlpha s
  = (existsb AnimationMore.hasAlpha (AnimationSet.mAnimations s),
     AnimationSet.with_mHasAlpha (existsb AnimationMore.hasAlpha (AnimationSet.mAnimations s))
       (AnimationSet.with_mDirty false s)).
Proof.
  intros Hd. unfold AnimationSet.hasAlpha. rewrite Hd.
  cbn [AnimationSet.mAnimations AnimationSet.with_mDirty AnimationSet.with_mHasAlpha].
  pose proof (alpha_scan (AnimationSet.mAnimations s) []
                (AnimationSet.with_mDirty false (AnimationSet.with_mHasAlpha false s))
                eq_refl eq_refl) as H.
  cbn [length AnimationSet.mAnimations AnimationSet.with_mDirty
       AnimationSet.with_mHasAlpha] in H.
  rewrite H. reflexivity.
Qed.

(** X17: on a dirty set [hasAlpha()] answers whether some child has alpha
    (false for no children), stores the answer in [mHasAlpha] and clears
    [mDirty]; stopping at the first child that has alpha does not change the
    answer. *)
Theorem hasAlpha_recomputes_when_dirty s :
  AnimationSet.mDirty s = true ->
  (fst (AnimationSet.hasAlpha s) = true
   <-> exists a, In a (AnimationSet.mAnimations s) /\ AnimationMore.hasAlpha a = true)
  /\ AnimationSet.mHasAlpha (snd (AnimationSet.hasAlpha s)) = fst (AnimationSet.hasAlpha s)
  /\ AnimationSet.mDirty (snd (AnimationSet.hasAlpha s)) = false
  /\ AnimationSet.mAnimations (snd (AnimationSet.hasAlpha s)) = AnimationSet.mAnimations s.
Proof.
  intros Hd. rewrite (hasAlpha_dirty s Hd). cbn [fst snd].
  repeat split; try apply existsb_exists.
Qed.

(** X18: on a set that is not dirty [hasAlpha()] returns the cached
    [mHasAlpha] without looking at the children and changes nothing; and a
    second [hasAlpha()] in a row always returns what the first returned. *)
Theorem hasAlpha_is_cached s :
  (AnimationSet.mDirty s = false ->
   AnimationSet.hasAlpha s = (AnimationSet.mHasAlpha s, s))
  /\ AnimationSet.hasAlpha (snd (AnimationSet.hasAlpha s))
     = (fst (AnimationSet.hasAlpha s), snd (AnimationSet.hasAlpha s)).
Proof.
  assert (Hclean : AnimationSet.mDirty s = false ->
                   AnimationSet.hasAlpha s = (AnimationSet.mHasAlpha s, s)).
  { intros Hd. unfold AnimationSet.hasAlpha. now rewrite Hd. }
  split; [exact Hclean|].
  destruct (AnimationSet.mDirty s) eqn:Hd.
  - rewrite (hasAlpha_dirty s Hd). cbn [fst snd]. reflexivity.
  - rewrite (Hclean eq_refl). cbn [fst snd]. now rewrite (Hclean eq_refl).
Qed.

(** X19: [addAnimation] invalidates the alpha cache: the next [hasAlpha()]
    answers for the children including the one just added, whatever was
    cached before. *)
Theorem hasAlpha_after_addAnimation a s :
  fst (AnimationSet.hasAlpha (AnimationSet.addAnimation a s))
  = existsb AnimationMore.hasAlpha (AnimationSet.mAnimations s) || AnimationMore.hasAlpha a.
Proof.
  rewrite hasAlpha_dirty.
  - cbn [fst]. rewrite addAnimation_children, existsb_app. cbn [existsb].
    now rewrite orb_false_r.
  - unfold AnimationSet.addAnimation.
    repeat match goal with |- context [if ?c then _ else _] => destruct c end; reflexivity.
Qed.

(** X20: [scaleCurrentDuration(scale)] is passed on to every child and to
    nothing else: the child array afterwards is the old one with the call
    applied to each element, and the set's own members (its [mDuration] and
    [mLastEnd] among them) are not rescaled. *)
Theorem scaleCurrentDuration_fans_out (scale : F) s :
  AnimationSet.mAnimations (AnimationSet.scaleCurrentDuration scale s)
  = map (AnimationMore.scaleCurrentDuration scale) (AnimationSet.mAnimations s)
  /\ AnimationSet.scaleCurrentDuration scale s
     = AnimationSet.with_mAnimations
         (map (AnimationMore.scaleCurrentDuration scale) (AnimationSet.mAnimations s)) s
  /\ AnimationSet.mDuration (AnimationSet.scaleCurrentDuration scale s)
     = AnimationSet.mDuration s
  /\ AnimationSet.mLastEnd (AnimationSet.scaleCurrentDuration scale s)
     = AnimationSet.mLastEnd s.
Proof.
  assert (H : AnimationSet.scaleCurrentDuration scale s
              = AnimationSet.with_mAnimations
                  (map (AnimationMore.scaleCurrentDuration scale)
                       (AnimationSet.mAnimations s)) s).
  { unfold AnimationSet.scaleCurrentDuration, AnimationSet.update_child. f_equal.
    exact (for_up_update (AnimationMore.scaleCurrentDuration scale)
                         (AnimationSet.mAnimations s) []). }
  rewrite H. repeat split; reflexivity.
Qed.

(** X21: [initialize] pushes nothing down to the children: the child array,
    the flags and the timing fields are as before, so [getDuration()],
    [getStartTime()] and [computeDurationHint()] answer as before; with the
    share-interpolator flag clear the object is unchanged altogether. *)
Theorem initialize_pushes_nothing_down (width height parentWidth parentHeight : Z) s :
  AnimationSet.mAnimations (AnimationSet.initialize width height parentWidth parentHeight s)
  = AnimationSet.mAnimations s
  /\ AnimationSet.mFlags (AnimationSet.initialize width height parentWidth parentHeight s)
     = AnimationSet.mFlags s
  /\ AnimationSet.mLastEnd (AnimationSet.initialize width height parentWidth parentHeight s)
     = AnimationSet.mLastEnd s
  /\ AnimationSet.getStartTime
       (AnimationSet.initialize width height parentWidth parentHeight s)
     = AnimationSet.getStartTime s
  /\ AnimationSet.computeDurationHint
       (AnimationSet.initialize width height parentWidth parentHeight s)
     = AnimationSet.computeDurationHint s
  /\ (AnimationSet.durationSet s = false ->
      AnimationSet.getDuration
        (AnimationSet.initialize width height parentWidth parentHeight s)
      = AnimationSet.getDuration s)
  /\ ((Z.land (AnimationSet.mFlags s) AnimationSet.PROPERTY_SHARE_INTERPOLATOR_MASK
       =? AnimationSet.PROPERTY_SHARE_INTERPOLATOR_MASK) = false ->
      AnimationSet.initialize width height parentWidth parentHeight s = s).
Proof.
  unfold AnimationSet.initialize.
  destruct (_ =? AnimationSet.PROPERTY_SHARE_INTERPOLATOR_MASK) eqn:E.
  - repeat split; try reflexivity.
    + intros Hflag. rewrite !getDuration_unfold.
      change (AnimationSet.durationSet
                (AnimationSet.with_super
                   (AnimationMore.ensureInterpolator (AnimationSet.super s)) s))
        with (AnimationSet.durationSet s).
      now rewrite Hflag.
    + discriminate.
  - repeat split; reflexivity.
Qed.

(** X22: [setDuration] refreshes [mLastEnd] and [setStartOffset] does not, so
    the order of the two calls shows in [mLastEnd]: offset first gives
    [offset + d], duration first leaves the sum taken with the old offset.
    Flags, [mStartOffset] and [mDuration] are the same either way. *)
Theorem setDuration_setStartOffset_order (d offset : Z) s :
  AnimationSet.mLastEnd (AnimationSet.setDuration d (AnimationSet.setStartOffset offset s))
  = ladd offset d
  /\ AnimationSet.mLastEnd (AnimationSet.setStartOffset offset (AnimationSet.setDuration d s))
     = ladd (AnimationSet.mStartOffset s) d
  /\ AnimationSet.super (AnimationSet.setDuration d (AnimationSet.setStartOffset offset s))
     = AnimationSet.super (AnimationSet.setStartOffset offset (AnimationSet.setDuration d s))
  /\ AnimationSet.mFlags (AnimationSet.setDuration d (AnimationSet.setStartOffset offset s))
     = AnimationSet.mFlags (AnimationSet.setStartOffset offset (AnimationSet.setDuration d s)).
Proof.
  repeat split; try reflexivity.
  cbn. rewrite <- !Z.lor_assoc. reflexivity.
Qed.

End MoreMethods.

Section Insertion.

Context {A T F B : Type}.
Context `{TO : Transformation.Ops T}.
Context `{AO : Animation.Ops A T F}.
Context `{BO : Animation.Base B F}.

(** X23: [addAnimation] appends: after any series of calls the array holds the
    old children followed by the added ones in the order of the calls, a
    child added twice being held twice; the k-th added child sits at index
    [count + k]. *)
Theorem addAnimation_keeps_insertion_order (l : list A) (s : AnimationSet.t A T B) :
  AnimationSet.mAnimations (build l s) = AnimationSet.mAnimations s ++ l
  /\ length (AnimationSet.mAnimations (build l s))
     = (length (AnimationSet.mAnimations s) + length l)%nat
  /\ (forall (k : nat) (a : A), l !! k = Some a ->
        AnimationSet.mAnimations (build l s)
          !! (length (AnimationSet.mAnimations s) + k)%nat = Some a).
Proof.
  rewrite build_children. split; [reflexivity|split].
  - apply length_app.
  - intros k a Hk. now rewrite lookup_app_r, Nat.add_comm, Nat.add_sub by lia.
Qed.

End Insertion.

(** ** The further properties on the reference instance *)

Lemma getStartTime_min_with_sentinel_witness :
  AnimationSet.getStartTime Sample.late_child = Z.min 100000 200000.
Proof. exact (proj1 (getStartTime_min_with_sentinel Sample.late_child 200000 eq_refl)). Defined.

Lemma getStartTime_after_setStartTime_witness :
  AnimationSet.getStartTime (AnimationSet.setStartTime 42 Sample.pair) = Z.min 100000 42.
Proof.
  apply (getStartTime_after_setStartTime 42 Sample.pair).
  - intros a. reflexivity.
  - intros Hnil. discriminate Hnil.
Defined.

Lemma computeDurationHint_longest_hint_witness :
  Animation.computeDurationHint (Sample.anim 0 10 1)
  <= AnimationSet.computeDurationHint Sample.pair.
Proof.
  apply (proj1 (proj2 (proj2 (computeDurationHint_longest_hint Sample.pair)))).
  left. reflexivity.
Defined.

Lemma aggregates_ignore_child_order_witness :
  AnimationSet.getDuration
    (AnimationSet.with_mAnimations [Sample.anim 0 20 2; Sample.anim 0 10 1] Sample.pair)
  = AnimationSet.getDuration Sample.pair.
Proof.
  apply (proj1 (aggregates_ignore_child_order Sample.pair
                  [Sample.anim 0 20 2; Sample.anim 0 10 1] (perm_swap _ _ _))).
Defined.

Lemma built_timing_closed_form_witness :
  AnimationSet.mLastEnd
    (build [Sample.anim 0 100 1; Sample.anim 0 20 2]
           (AnimationSet.setStartOffset 10 (Sample.fresh None))) = 110.
Proof.
  exact (proj1 (built_timing_closed_form (Sample.anim 0 100 1) [Sample.anim 0 20 2]
                  (AnimationSet.setStartOffset 10 (Sample.fresh None)) eq_refl eq_refl)).
Defined.

Lemma built_duration_zero_offset_witness :
  AnimationSet.mDuration
    (build [Sample.anim 100 50 1; Sample.anim 0 20 2] (Sample.fresh None)) = 150.
Proof.
  exact (proj2 (built_duration_zero_offset [Sample.anim 100 50 1; Sample.anim 0 20 2]
                  (Sample.fresh None) 150 eq_refl eq_refl eq_refl eq_refl)).
Defined.

Lemma lastEnd_never_decreases_witness :
  AnimationSet.mLastEnd Sample.pair
  <= AnimationSet.mLastEnd (AnimationSet.addAnimation (Sample.anim 0 5 3) Sample.pair).
Proof.
  apply (proj1 (proj2 (lastEnd_never_decreases (Sample.anim 0 5 3) Sample.pair eq_refl
                         (fun H => ltac:(discriminate H))))).
Defined.

Lemma getTransformation_without_listener_witness :
  gt_events (AnimationSet.getTransformation 5 [] Sample.one_child) = [].
Proof.
  exact (proj1 (getTransformation_without_listener 5 [] Sample.one_child eq_refl)).
Defined.

Lemma started_is_some_child_started_witness :
  agg_started 5 []
    (AnimationSet.with_mAnimations [Sample.anim 0 20 2; Sample.anim 0 10 1] Sample.pair)
  = agg_started 5 [] Sample.pair.
Proof.
  apply (proj2 (proj2 (started_is_some_child_started 5 [] Sample.pair))).
  apply perm_swap.
Defined.

Lemma end_callbacks_count_toggles_witness :
  AnimationSet.mEnded (run_final Sample.frames Sample.pair)
  = xorb (AnimationSet.mEnded Sample.pair)
         (Nat.odd (count_events is_end (all_events (run Sample.frames Sample.pair)))).
Proof. exact (end_callbacks_count_toggles Sample.frames Sample.pair 7%nat eq_refl). Defined.

Lemma setFlag_sets_or_clears_only_its_mask_witness :
  Z.land (AnimationSet.mFlags
            (AnimationSet.setFlag AnimationSet.PROPERTY_SHARE_INTERPOLATOR_MASK false
               (AnimationSet.setDuration 5 (Sample.fresh None))))
         AnimationSet.PROPERTY_DURATION_MASK
  = Z.land (AnimationSet.mFlags (AnimationSet.setDuration 5 (Sample.fresh None)))
           AnimationSet.PROPERTY_DURATION_MASK.
Proof.
  apply (proj2 (proj2 (setFlag_sets_or_clears_only_its_mask
                         AnimationSet.PROPERTY_SHARE_INTERPOLATOR_MASK false
                         (AnimationSet.setDuration 5 (Sample.fresh None))))).
  reflexivity.
Defined.

Lemma hasAlpha_recomputes_when_dirty_witness :
  AnimationSet.mDirty (snd (AnimationSet.hasAlpha Sample.pair)) = false.
Proof.
  exact (proj1 (proj2 (proj2 (hasAlpha_recomputes_when_dirty Sample.pair eq_refl)))).
Defined.

Lemma hasAlpha_is_cached_witness :
  AnimationSet.hasAlpha (Sample.fresh None) = (false, Sample.fresh None).
Proof. exact (proj1 (hasAlpha_is_cached (Sample.fresh None)) eq_refl). Defined.

Lemma initialize_pushes_nothing_down_witness :
  AnimationSet.initialize 1 2 3 4 Sample.pair = Sample.pair.
Proof.
  destruct (initialize_pushes_nothing_down 1 2 3 4 Sample.pair)
    as (_ & _ & _ & _ & _ & _ & H).
  exact (H eq_refl).
Defined.

Lemma addAnimation_keeps_insertion_order_witness :
  AnimationSet.mAnimations (build [Sample.anim 0 5 3; Sample.anim 0 5 3] Sample.pair)
    !! (length (AnimationSet.mAnimations Sample.pair) + 1)%nat
  = Some (Sample.anim 0 5 3).
Proof.
  apply (proj2 (proj2 (addAnimation_keeps_insertion_order
                         [Sample.anim 0 5 3; Sample.anim 0 5 3] Sample.pair))).
  reflexivity.
Defined.
